(** * FONPR_Env: the Gymnasium environment of the FONPR agents

    A shallow embedding of [fonpr/agents/fonpr_env.py].  The environment
    object is a record, its methods are computations in a state-and-exception
    monad that also records every call leaving the process (logging, the
    GitHub action handler, [sleep], the EC2 cost lookup, Prometheus queries).
    The answers of the outside world are given by a record of functions of the
    history of calls made so far; pandas and [np.sum] are an interface. *)

From Stdlib Require Import ZArith List String Ascii Bool Lia.
From Stdlib Require Import PrimFloat Uint63 DecimalString.
Import ListNotations.

Set Implicit Arguments.
Set Warnings "-register-all,-inexact-float".
Local Open Scope string_scope.
Local Open Scope Z_scope.

(** ** Exceptions and results *)

Inductive exn : Type :=
| ZeroDivisionError
| IndexError
| KeyError (key : string)
| TypeError
| AttributeError
| ValueError
| GymnasiumError
| ExternalError (origin : string) (message : string).

Inductive result (A : Type) : Type :=
| Ok (a : A)
| Raise (e : exn).

Arguments Ok {A} a.
Arguments Raise {A} e.

Definition is_ok {A} (r : result A) : bool :=
  match r with Ok _ => true | Raise _ => false end.

(** ** Python values, as decoded from the JSON answers of Prometheus *)

Inductive pyval : Type :=
| PyNone
| PyInt (z : Z)
| PyFloat (x : float)
| PyStr (s : string)
| PyList (l : list pyval)
| PyDict (d : list (string * pyval)).

Fixpoint assoc (k : string) (d : list (string * pyval)) : option pyval :=
  match d with
  | [] => None
  | (k', v) :: d' => if String.eqb k k' then Some v else assoc k d'
  end.

(** [v[i]] for an integer index; negative indices count from the end. *)
Definition py_index {A} (l : list A) (i : Z) : option A :=
  let n := Z.of_nat (List.length l) in
  if (0 <=? i) && (i <? n) then nth_error l (Z.to_nat i)
  else if (i <? 0) && (0 <=? i + n) then nth_error l (Z.to_nat (i + n))
  else None.

Definition chars (s : string) : list string :=
  map (fun c => String c EmptyString) (list_ascii_of_string s).

Definition getitem_int (v : pyval) (i : Z) : result pyval :=
  match v with
  | PyList l =>
      match py_index l i with Some x => Ok x | None => Raise IndexError end
  | PyStr s =>
      match py_index (chars s) i with
      | Some c => Ok (PyStr c)
      | None => Raise IndexError
      end
  | PyDict _ => Raise (KeyError (NilZero.string_of_int (Z.to_int i)))
  | _ => Raise TypeError
  end.

(** [v[k]] for a string key. *)
Definition getitem_str (v : pyval) (k : string) : result pyval :=
  match v with
  | PyDict d =>
      match assoc k d with Some x => Ok x | None => Raise (KeyError k) end
  | _ => Raise TypeError
  end.

(** [for x in v]: the items a [for] loop visits. *)
Definition py_iter (v : pyval) : result (list pyval) :=
  match v with
  | PyList l => Ok l
  | PyDict d => Ok (map (fun kv => PyStr (fst kv)) d)
  | PyStr s => Ok (map PyStr (chars s))
  | _ => Raise TypeError
  end.

(** [s.replace('.', '-')] *)
Fixpoint replace_dot_dash (s : string) : string :=
  match s with
  | EmptyString => EmptyString
  | String c s' =>
      String (if Ascii.eqb c "."%char then "-"%char else c) (replace_dot_dash s')
  end.

Definition str_replace_dot_dash (v : pyval) : result string :=
  match v with
  | PyStr s => Ok (replace_dot_dash s)
  | _ => Raise AttributeError
  end.

(** [str(i)] and [f'{i}'] for an integer. *)
Definition str_of_Z (z : Z) : string := NilZero.string_of_int (Z.to_int z).

(** ** NumPy arrays of at most two dimensions *)

Record ndarray : Type := mk_ndarray {
  shape : Z * Z;
  data : list float
}.

(** [np.zeros(n)]: a negative dimension is refused. *)
Definition np_zeros (n : Z) : result (list float) :=
  if n <? 0 then Raise ValueError else Ok (repeat 0%float (Z.to_nat n)).

(** [np.insert(arr, 0, values)] on one-dimensional arrays. *)
Definition np_insert_front (arr values : list float) : list float :=
  values ++ arr.

(** [np.tile(np.array([x]), (n, 1))] *)
Definition np_tile_scalar (x : float) (n : Z) : result ndarray :=
  if n <? 0 then Raise ValueError
  else Ok (mk_ndarray (n, 1) (repeat x (Z.to_nat n))).

(** [a.reshape(a.shape[0], 1)] on a one-dimensional array. *)
Definition reshape_column (a : list float) : ndarray :=
  mk_ndarray (Z.of_nat (List.length a), 1) a.

(** ** Gymnasium spaces *)

Record Box : Type := mk_Box {
  low : ndarray;
  high : ndarray;
  box_shape : Z * Z
}.

Record Discrete : Type := mk_Discrete { n_actions : Z }.

(** ** The libraries the environment computes with

    pandas data frames and NumPy's reduction are libraries outside the
    repository; every operation the environment calls is a field here, named
    after the call, and each may raise. *)

Class Libraries : Type := {
  DataFrame : Type;
  (** [pd.DataFrame(rows, columns=cols)] *)
  pd_DataFrame : pyval -> list string -> result DataFrame;
  (** [df.set_index(col)] *)
  df_set_index : string -> DataFrame -> result DataFrame;
  (** [df.index = pd.to_datetime(df.index, unit='s')] *)
  df_index_to_datetime : DataFrame -> result DataFrame;
  (** [df[col] = df[col].astype(float)] *)
  df_astype_float : string -> DataFrame -> result DataFrame;
  (** [df.iloc[i, j]] *)
  df_iloc : Z -> Z -> DataFrame -> result float;
  (** [df[col] = df[col] - x] *)
  df_sub_scalar : string -> float -> DataFrame -> result DataFrame;
  (** [df.interpolate()] *)
  df_interpolate : DataFrame -> result DataFrame;
  (** [df.resample(rule).mean()] *)
  df_resample_mean : string -> DataFrame -> result DataFrame;
  (** [df[col].values] *)
  df_values : string -> DataFrame -> result (list float);
  (** [np.sum(a)] over all the entries of [a] *)
  np_sum : ndarray -> float
}.

(** ** The outside world *)

(** What a [PromClient] is asked: the queries set by
    [set_queries_by_function] or by [set_queries_by_list]. *)
Inductive queries : Type :=
| NoQueries
| QueriesByFunction (q : pyval)
| QueriesByList (l : list string).

Record PromClient : Type := mk_PromClient {
  prom_url : string;
  prom_queries : queries
}.

Definition set_queries_by_function (q : pyval) (c : PromClient) : PromClient :=
  mk_PromClient (prom_url c) (QueriesByFunction q).

Definition set_queries_by_list (l : list string) (c : PromClient) : PromClient :=
  mk_PromClient (prom_url c) (QueriesByList l).

Record ActionHandler : Type := mk_ActionHandler {
  ah_token : pyval;
  ah_gh_url : string;
  ah_dir_name : string;
  ah_request : list (string * string)
}.

(** Every call that leaves the process, in the order it is made. *)
Inductive event : Type :=
| LoggingInfo (msg : string)
| GetToken
| NewActionHandler (h : ActionHandler)
| FetchUpdatePushUpfSizing (h : ActionHandler)
| Sleep (seconds : Z)
| Ec2CostCalculator (instance : string)
| PromQueryRlUpfExperiment1
| RunQueries (c : PromClient).

(** The answers of the outside world.  Each is a function of the calls made
    before it, so a backend may answer differently over time and react to
    the updates dispatched to it. *)
Record Outside : Type := {
  get_token : list event -> result pyval;
  action_handler_init : list event -> ActionHandler -> result unit;
  fetch_update_push_upf_sizing : list event -> ActionHandler -> result unit;
  ec2_cost_calculator : list event -> string -> result pyval;
  prom_query_rl_upf_experiment1 : list event -> result pyval;
  run_queries : list event -> PromClient -> result pyval
}.

(** ** The environment object *)

Record FONPR_Env : Type := mk_env {
  window : Z;
  sample_rate : Z;
  samples : Z;
  obs_period : Z;
  instance_size : string;
  observation_space : Box;
  action_space : Discrete;
  render_mode : option string;
  step_counter : Z;
  (** inherited from [gymnasium.Env]: the seed of [self.np_random] *)
  np_random_seed : option Z
}.

Record State : Type := mk_State {
  self : FONPR_Env;
  history : list event
}.

(** ** The monad: state, exceptions, recorded calls

    An exception leaves the state as it was when it was raised, as a Python
    exception leaves the object. *)

Definition M (A : Type) : Type := State -> result A * State.

Definition ret {A} (a : A) : M A := fun s => (Ok a, s).

Definition raise {A} (e : exn) : M A := fun s => (Raise e, s).

Definition bind {A B} (m : M A) (f : A -> M B) : M B :=
  fun s =>
    match m s with
    | (Ok a, s') => f a s'
    | (Raise e, s') => (Raise e, s')
    end.

Definition lift {A} (r : result A) : M A := fun s => (r, s).

Definition get_self : M FONPR_Env := fun s => (Ok (self s), s).

Definition put_self (e : FONPR_Env) : M unit :=
  fun s => (Ok tt, mk_State e (history s)).

(** A call to the outside: it is recorded, then its answer is returned. *)
Definition call {A} (ev : event) (answer : list event -> result A) : M A :=
  fun s => (answer (history s), mk_State (self s) (history s ++ [ev])).

Declare Scope py_scope.
Delimit Scope py_scope with py.
Notation "x <- m ;; k" := (bind m (fun x => k))
  (at level 100, m at next level, right associativity) : py_scope.
Notation "m ;; k" := (bind m (fun _ => k))
  (at level 100, right associativity) : py_scope.
Local Open Scope py_scope.

(** The same sequencing for computations that only may raise. *)
Definition result_bind {A B} (r : result A) (f : A -> result B) : result B :=
  match r with
  | Ok a => f a
  | Raise e => Raise e
  end.

Notation "x <-- r ;; k" := (result_bind r (fun x => k))
  (at level 100, r at next level, right associativity) : py_scope.

(** ** The class [FONPR_Env] *)

Definition set_step_counter (c : Z) (e : FONPR_Env) : FONPR_Env :=
  mk_env (window e) (sample_rate e) (samples e) (obs_period e)
    (instance_size e) (observation_space e) (action_space e) (render_mode e)
    c (np_random_seed e).

Definition set_np_random_seed (sd : option Z) (e : FONPR_Env) : FONPR_Env :=
  mk_env (window e) (sample_rate e) (samples e) (obs_period e)
    (instance_size e) (observation_space e) (action_space e) (render_mode e)
    (step_counter e) sd.

(** [__init__(self, render_mode=None, window=15, sample_rate=4, obs_period=5)] *)
Definition __init__ (render_mode : option string)
    (window sample_rate obs_period : Z) : result FONPR_Env :=
  let samples := window * sample_rate in
  low <-- np_tile_scalar 0%float samples ;;
  high <-- np_tile_scalar infinity samples ;;
  let observation_space := mk_Box low high (samples, snd (shape low)) in
  let action_space := mk_Discrete 3 in
  Ok (mk_env window sample_rate samples obs_period "Large"
        observation_space action_space render_mode 0 None).

Definition default_render_mode : option string := None.
Definition default_window : Z := 15.
Definition default_sample_rate : Z := 4.
Definition default_obs_period : Z := 5.

(** What [step] returns: [observation, reward, terminated, truncated, info]. *)
Record step_result : Type := mk_step_result {
  observation : ndarray;
  reward : float;
  terminated : bool;
  truncated : bool;
  info : pyval
}.

(** What the loop over the pods stores under [f'pod{i}']. *)
Record pod_entry : Type := mk_pod_entry {
  host_ip : pyval;
  values : pyval;
  instance_type : pyval
}.

Definition gh_url : string :=
  "https://github.com/DISHDevEx/napp/blob/matt/test_update/napp/open5gs_values/5gSA_no_ues_values_with_nodegroups.yaml".

Definition dir_name : string := "napp".

Definition rxtx_value : float := 3.33e-9%float.

Section Environment.

Context {L : Libraries}.
Variable W : Outside.

(** [int(60/self.sample_rate)]: true division, then truncation towards
    zero. *)
Definition resample_seconds (sample_rate : Z) : result Z :=
  if sample_rate =? 0 then Raise ZeroDivisionError
  else Ok (Z.quot 60 sample_rate).

(** [f'{int(60/self.sample_rate)}s'] *)
Definition resample_rule (sample_rate : Z) : result string :=
  k <-- resample_seconds sample_rate ;;
  Ok (str_of_Z k ++ "s").

(** Line 55: [prom_response[0][0]['values']], the throughput time series of
    the first query result. *)
Definition throughput_rows (prom_response : pyval) : result pyval :=
  r0 <-- getitem_int prom_response 0 ;;
  r00 <-- getitem_int r0 0 ;;
  getitem_str r00 "values".

(** Lines 55 to 65 of [_get_obs]: from the first query result to the
    processed throughput values. *)
Definition throughput_values (sample_rate : Z) (prom_response : pyval)
    : result (list float) :=
  rows <-- throughput_rows prom_response ;;
  df <-- pd_DataFrame rows ["DateTime"; "Throughput"] ;;
  df <-- df_set_index "DateTime" df ;;
  df <-- df_index_to_datetime df ;;
  df <-- df_astype_float "Throughput" df ;;
  first <-- df_iloc 0 0 df ;;
  df <-- df_sub_scalar "Throughput" first df ;;
  df <-- df_interpolate df ;;
  rule <-- resample_rule sample_rate ;;
  df <-- df_resample_mean rule df ;;
  df <-- df_interpolate df ;;
  df_values "Throughput" df.

(** Lines 68 and 69: prepend zeroes if less samples are present than
    required. *)
Definition prepend_zeroes (samples : Z) (through_vals : list float)
    : result (list float) :=
  let len := Z.of_nat (List.length through_vals) in
  if negb (len =? samples) then
    zeroes <-- np_zeros (samples - len) ;;
    Ok (np_insert_front through_vals zeroes)
  else Ok through_vals.

(** Lines 76 to 85: the body of the loop over the pods. *)
Definition process_pod (client : PromClient) (pod : pyval)
    : M (PromClient * pod_entry) :=
  metric <- lift (getitem_str pod "metric") ;;
  host_ip <- lift (getitem_str metric "host_ip") ;;
  values <- lift (getitem_str pod "values") ;;
  dashed <- lift (str_replace_dot_dash host_ip) ;;
  let node_name := "ip-" ++ dashed ++ ".ec2.internal" in
  let client :=
    set_queries_by_list ["kube_node_labels{node='" ++ node_name ++ "'}"] client in
  node_labels <- call (RunQueries client) (fun h => run_queries W h client) ;;
  first <- lift (getitem_int node_labels 0) ;;
  metric <- lift (getitem_str first "metric") ;;
  instance_type <-
    lift (getitem_str metric "label_node_kubernetes_io_instance_type") ;;
  ret (client, mk_pod_entry host_ip values instance_type).

(** Lines 72 to 85: [for i, pod in enumerate(prom_response[1])]. *)
Fixpoint process_pods (client : PromClient) (i : Z)
    (pods : list (string * pod_entry)) (items : list pyval)
    : M (list (string * pod_entry)) :=
  match items with
  | [] => ret pods
  | pod :: rest =>
      r <- process_pod client pod ;;
      process_pods (fst r) (i + 1)
        (pods ++ [("pod" ++ str_of_Z i, snd r)]) rest
  end.

(** Lines 72 to 85: the pod info, collected into [pods]. *)
Definition collect_pods (client : PromClient) (prom_response : pyval)
    : M (list (string * pod_entry)) :=
  pod_list <- lift (getitem_int prom_response 1) ;;
  items <- lift (py_iter pod_list) ;;
  process_pods client 0 [] items.

(** The client of lines 51 and 52, once its queries are set. *)
Definition advisor (q : pyval) : PromClient :=
  set_queries_by_function q (mk_PromClient "http://10.0.104.52:9090" NoQueries).

Definition _get_obs : M ndarray :=
  q <- call PromQueryRlUpfExperiment1 (prom_query_rl_upf_experiment1 W) ;;
  let prom_client_advisor := advisor q in
  prom_response <-
    call (RunQueries prom_client_advisor)
      (fun h => run_queries W h prom_client_advisor) ;;
  env <- get_self ;;
  through_vals <- lift (throughput_values (sample_rate env) prom_response) ;;
  through_vals <- lift (prepend_zeroes (samples env) through_vals) ;;
  pods <- collect_pods prom_client_advisor prom_response ;;
  ret (reshape_column through_vals).

Definition _get_info : M pyval := ret (PyDict []).

(** [gymnasium.Env.reset(seed=seed)]: a given seed reseeds [self.np_random],
    and a negative one is refused. *)
Definition Env_reset (seed : option Z) : M unit :=
  match seed with
  | None => ret tt
  | Some sd =>
      if sd <? 0 then raise GymnasiumError
      else (env <- get_self ;; put_self (set_np_random_seed (Some sd) env))
  end.

Definition reset (seed : option Z) (options : pyval) : M (ndarray * pyval) :=
  Env_reset seed ;;
  observation <- _get_obs ;;
  info <- _get_info ;;
  ret (observation, info).

(** Lines 114 and 115 (117 and 118): build the handler and push the new
    sizing of the UPF. *)
Definition transition_to (size : string) : M unit :=
  token <- call GetToken (get_token W) ;;
  let hndl :=
    mk_ActionHandler token gh_url dir_name
      [("target_pod", "upf"); ("values", size)] in
  call (NewActionHandler hndl) (fun h => action_handler_init W h hndl) ;;
  call (FetchUpdatePushUpfSizing hndl)
    (fun h => fetch_update_push_upf_sizing W h hndl).

(** Lines 110 to 118: the branch on the action. *)
Definition apply_action (action : Z) : M unit :=
  if action =? 0 then
    call (LoggingInfo "No action taken for this cycle.") (fun _ => Ok tt)
  else if action =? 1 then transition_to "Large"
  else if action =? 2 then transition_to "Small"
  else ret tt.

Definition step (action : Z) : M step_result :=
  apply_action action ;;
  call (Sleep 10) (fun _ => Ok tt) ;;
  li_cost <-
    call (Ec2CostCalculator "m4.large")
      (fun h => ec2_cost_calculator W h "m4.large") ;;
  si_cost <-
    call (Ec2CostCalculator "t3.medium")
      (fun h => ec2_cost_calculator W h "t3.medium") ;;
  observation <- _get_obs ;;
  let reward := (rxtx_value * np_sum observation)%float in
  info <- _get_info ;;
  let terminated := false in
  env <- get_self ;;
  put_self (set_step_counter (step_counter env + 1) env) ;;
  env <- get_self ;;
  let truncated := if step_counter env mod 6 =? 0 then true else false in
  ret (mk_step_result observation reward terminated truncated info).

(** What [step] does once the action is applied: lines 120 to 139. *)
Definition observe_and_count : M step_result :=
  call (Sleep 10) (fun _ => Ok tt) ;;
  li_cost <-
    call (Ec2CostCalculator "m4.large")
      (fun h => ec2_cost_calculator W h "m4.large") ;;
  si_cost <-
    call (Ec2CostCalculator "t3.medium")
      (fun h => ec2_cost_calculator W h "t3.medium") ;;
  observation <- _get_obs ;;
  let reward := (rxtx_value * np_sum observation)%float in
  info <- _get_info ;;
  let terminated := false in
  env <- get_self ;;
  put_self (set_step_counter (step_counter env + 1) env) ;;
  env <- get_self ;;
  let truncated := if step_counter env mod 6 =? 0 then true else false in
  ret (mk_step_result observation reward terminated truncated info).

End Environment.

(** ** Reading the history *)

(** The calls made between two states of one run. *)
Definition new_events (s s' : State) : list event :=
  skipn (List.length (history s)) (history s').

(** The requests pushed to the configuration repository. *)
Definition dispatched (evs : list event) : list (list (string * string)) :=
  flat_map
    (fun ev =>
       match ev with
       | FetchUpdatePushUpfSizing h => [ah_request h]
       | _ => []
       end)
    evs.

(** The durations slept, in seconds. *)
Definition slept (evs : list event) : list Z :=
  flat_map (fun ev => match ev with Sleep n => [n] | _ => [] end) evs.

Definition is_sleep (ev : event) : bool :=
  match ev with Sleep _ => true | _ => false end.

Definition is_query (ev : event) : bool :=
  match ev with
  | PromQueryRlUpfExperiment1 | RunQueries _ => true
  | _ => false
  end.

Definition is_handler_call (ev : event) : bool :=
  match ev with
  | LoggingInfo _ | GetToken | NewActionHandler _
  | FetchUpdatePushUpfSizing _ => true
  | _ => false
  end.

Definition upf_request (size : string) : list (string * string) :=
  [("target_pod", "upf"); ("values", size)].

(** The answer to the first metrics query of [_get_obs] after the calls
    [h]. *)
Definition first_response (W : Outside) (h : list event) : result pyval :=
  q <-- prom_query_rl_upf_experiment1 W h ;;
  run_queries W (h ++ [PromQueryRlUpfExperiment1]) (advisor q).

(** The states an environment can be in: built by [__init__], then driven
    by [reset] and [step], whether they return or raise. *)
Inductive reachable {L : Libraries} (W : Outside) : State -> Prop :=
| reachable_init render_mode window sample_rate obs_period env h :
    __init__ render_mode window sample_rate obs_period = Ok env ->
    reachable W (mk_State env h)
| reachable_reset s seed options r s' :
    reachable W s ->
    reset W seed options s = (r, s') ->
    reachable W s'
| reachable_step s action r s' :
    reachable W s ->
    step W action s = (r, s') ->
    reachable W s'.

(** A caller's loop: one [step] per action, as long as none raises. *)
Fixpoint run_steps {L : Libraries} (W : Outside) (actions : list Z)
    : M (list step_result) :=
  match actions with
  | [] => ret []
  | a :: rest =>
      r <- step W a ;;
      rs <- run_steps W rest ;;
      ret (r :: rs)
  end.

(** ** The methods left empty *)

(** [render] and [close]: their body is [...]. *)
Definition render : M unit := ret tt.

Definition close : M unit := ret tt.

(** ** The calls a run is expected to make *)

(** The clients whose queries were run, in order. *)
Definition clients_asked (evs : list event) : list PromClient :=
  flat_map (fun ev => match ev with RunQueries c => [c] | _ => [] end) evs.

(** [pod['metric']['host_ip']] *)
Definition pod_host_ip (pod : pyval) : result pyval :=
  metric <-- getitem_str pod "metric" ;;
  getitem_str metric "host_ip".

(** The query of line 81 for the node of a host. *)
Definition node_labels_query (host_ip : string) : string :=
  ("kube_node_labels{node='"
     ++ ("ip-" ++ replace_dot_dash host_ip ++ ".ec2.internal") ++ "'}")%string.

(** The client of line 51 once line 81 has set its queries, under any
    queries it had before. *)
Definition node_client (host_ip : string) : PromClient :=
  mk_PromClient "http://10.0.104.52:9090"
    (QueriesByList [node_labels_query host_ip]).

(** The calls of lines 114 and 115 (117 and 118) for a token. *)
Definition handler_events (token : pyval) (size : string) : list event :=
  let hndl := mk_ActionHandler token gh_url dir_name (upf_request size) in
  [GetToken; NewActionHandler hndl; FetchUpdatePushUpfSizing hndl].

(** The calls of lines 120 to 125. *)
Definition sleep_and_costs : list event :=
  [Sleep 10; Ec2CostCalculator "m4.large"; Ec2CostCalculator "t3.medium"].

(** ** What [__init__] establishes *)

(** The observation space of [n] samples: [Box] of shape [(n, 1)] between
    0 and infinity. *)
Definition declared_space (n : Z) : Box :=
  mk_Box (mk_ndarray (n, 1) (repeat 0%float (Z.to_nat n)))
    (mk_ndarray (n, 1) (repeat infinity (Z.to_nat n)))
    (n, 1).

Definition consistent (e : FONPR_Env) : Prop :=
  samples e = window e * sample_rate e /\
  0 <= samples e /\
  0 <= step_counter e /\
  action_space e = mk_Discrete 3 /\
  observation_space e = declared_space (samples e).

(** ** States of a run and relations between them *)

Local Open Scope list_scope.

(** The states an environment reaches from the object [env] that [__init__]
    built: [env] itself, after any calls, then any [reset] and [step],
    whether they return or raise. *)
Inductive reached_from {L : Libraries} (W : Outside) (env : FONPR_Env)
    : State -> Prop :=
| reached_start h : reached_from W env (mk_State env h)
| reached_reset s seed options r s' :
    reached_from W env s ->
    reset W seed options s = (r, s') ->
    reached_from W env s'
| reached_step s action r s' :
    reached_from W env s ->
    step W action s = (r, s') ->
    reached_from W env s'.

(** ** Lines 55 to 65, step by step *)

(** [series] is what lines 55 to 65 compute from the answer [resp] at the
    sample rate [r]: every pandas call of the source went through, the frame
    was resampled with the rule of [int(60 / r)] seconds, and [series] holds
    the values of the resampled and interpolated frame. *)
Definition resampled_series {L : Libraries} (r : Z) (resp : pyval)
    (series : list float) : Prop :=
  exists rows df0 df1 df2 df3 first df4 df5 df6 df7,
    throughput_rows resp = Ok rows /\
    pd_DataFrame rows ["DateTime"; "Throughput"] = Ok df0 /\
    df_set_index "DateTime" df0 = Ok df1 /\
    df_index_to_datetime df1 = Ok df2 /\
    df_astype_float "Throughput" df2 = Ok df3 /\
    df_iloc 0 0 df3 = Ok first /\
    df_sub_scalar "Throughput" first df3 = Ok df4 /\
    df_interpolate df4 = Ok df5 /\
    r <> 0 /\
    df_resample_mean (str_of_Z (Z.quot 60 r) ++ "s")%string df5 = Ok df6 /\
    df_interpolate df6 = Ok df7 /\
    df_values "Throughput" df7 = Ok series.

(** The resampling period as the words "one sample every 60/r seconds"
    have it: a whole number of seconds [k] with [k * r = 60]. *)
Definition resamples_every_sixty_over_rate (r : Z) : Prop :=
  exists k, resample_seconds r = Ok k /\ k * r = 60.

(** ** Calls that raise *)

Definition error_of {A} (r : result A) : option exn :=
  match r with
  | Ok _ => None
  | Raise e => Some e
  end.

(** The error with which the outside answers the call [ev] made after the
    calls [h], if it answers with one.  Logging and sleeping do not raise. *)
Definition raised_by (W : Outside) (h : list event) (ev : event) : option exn :=
  match ev with
  | LoggingInfo _ => None
  | GetToken => error_of (get_token W h)
  | NewActionHandler hndl => error_of (action_handler_init W h hndl)
  | FetchUpdatePushUpfSizing hndl =>
      error_of (fetch_update_push_upf_sizing W h hndl)
  | Sleep _ => None
  | Ec2CostCalculator instance => error_of (ec2_cost_calculator W h instance)
  | PromQueryRlUpfExperiment1 => error_of (prom_query_rl_upf_experiment1 W h)
  | RunQueries c => error_of (run_queries W h c)
  end.

(** Nothing is caught over the calls [d] made after [h] by a run that ended
    with [outcome]: a call that raised is the last call of the run, and its
    error is the outcome. *)
Definition uncaught (W : Outside) (h d : list event) (outcome : option exn)
    : Prop :=
  forall d1 ev d2 e,
    d = d1 ++ ev :: d2 ->
    raised_by W (h ++ d1) ev = Some e ->
    d2 = [] /\ outcome = Some e.

(** Every run of [m] extends the history by calls none of which is caught. *)
Definition catches_nothing (W : Outside) {A} (m : M A) : Prop :=
  forall s r s',
    m s = (r, s') ->
    exists d, history s' = history s ++ d /\ uncaught W (history s) d (error_of r).

(** [m] relates the state it starts in to the state it ends in by [R],
    whether it returns or raises. *)
Definition steps_to {A} (R : State -> State -> Prop) (m : M A) : Prop :=
  forall s r s', m s = (r, s') -> R s s'.

(** The object is as it was, and the calls made all satisfy [P]. *)
Definition emits (P : event -> bool) (s s' : State) : Prop :=
  self s' = self s /\
  exists d, history s' = history s ++ d /\ Forall (fun ev => P ev = true) d.

(** The fields [step] and [reset] never assign. *)
Definition same_config (e e' : FONPR_Env) : Prop :=
  window e' = window e /\
  sample_rate e' = sample_rate e /\
  samples e' = samples e /\
  obs_period e' = obs_period e /\
  instance_size e' = instance_size e /\
  observation_space e' = observation_space e /\
  action_space e' = action_space e /\
  render_mode e' = render_mode e.

(** All but [step_counter] is kept. *)
Definition same_but_counter (e e' : FONPR_Env) : Prop :=
  same_config e e' /\ np_random_seed e' = np_random_seed e.

(** All but the seed of [np_random] is kept. *)
Definition same_but_seed (e e' : FONPR_Env) : Prop :=
  same_config e e' /\ step_counter e' = step_counter e.

(** The object changes within [Q], and the calls made all satisfy [P]. *)
Definition evolves (Q : FONPR_Env -> FONPR_Env -> Prop) (P : event -> bool)
    (s s' : State) : Prop :=
  Q (self s) (self s') /\
  exists d, history s' = history s ++ d /\ Forall (fun ev => P ev = true) d.

(** The state in which [step] asks for the observation, when the action was
    applied in [s1] and both cost lookups answered. *)
Definition before_obs (s1 : State) : State :=
  mk_State (self s1)
    (history s1 ++
       [Sleep 10; Ec2CostCalculator "m4.large"; Ec2CostCalculator "t3.medium"]).

(** The state [step] leaves when the observation was obtained in [s4]. *)
Definition counted (s4 : State) : State :=
  mk_State (set_step_counter (step_counter (self s4) + 1) (self s4))
    (history s4).

(** What may follow the [sleep] of [step]. *)
Definition after_sleep (ev : event) : bool :=
  negb (is_sleep ev) && negb (is_handler_call ev).

(** The state after the two calls that open [_get_obs]. *)
Definition queried (s : State) (q : pyval) : State :=
  mk_State (self s)
    (history s ++ [PromQueryRlUpfExperiment1; RunQueries (advisor q)]).

(** ** The reward the source comment describes

    [revenue generated by rx/tx on network ($) - cost of running large
    instance ($) - cost of running small instance ($)], with the cost terms of
    the lines commented out under it: the hourly cost, per minute, times the
    share of the samples the instance was on, times the window. *)
Definition running_cost (hourly_cost presence_sum n_samples window : float)
    : float :=
  (hourly_cost / 60 * presence_sum / n_samples * window)%float.

Definition reward_with_costs (revenue large_cost small_cost : float) : float :=
  (revenue - large_cost - small_cost)%float.

(** ** An executable reference for the libraries

    A small implementation of the pandas operations above, and a
    left-to-right [np.sum]; it serves to run the environment on concrete
    backends and no general statement rests on it.  It covers frames with
    one value column whose timestamps are integers, in whole seconds and
    below 2^63, and whose values are numbers or strings of an integer; on
    float timestamps and on decimal strings such as ['1000.5'], which
    pandas accepts, it raises. *)
Module Reference.

Definition frame : Type := list (pyval * pyval).

Fixpoint map_result {A B} (f : A -> result B) (l : list A) : result (list B) :=
  match l with
  | [] => Ok []
  | x :: l' =>
      y <-- f x ;;
      ys <-- map_result f l' ;;
      Ok (y :: ys)
  end.

Definition row_of (v : pyval) : result (pyval * pyval) :=
  match v with
  | PyList [a; b] => Ok (a, b)
  | _ => Raise ValueError
  end.

Definition make_frame (rows : pyval) (columns : list string) : result frame :=
  match rows, columns with
  | PyList l, [_; _] => map_result row_of l
  | _, _ => Raise ValueError
  end.

Definition float_of_Z (z : Z) : float :=
  if z <? 0 then PrimFloat.opp (of_uint63 (Uint63.of_Z (Z.opp z)))
  else of_uint63 (Uint63.of_Z z).

Definition to_float (v : pyval) : result float :=
  match v with
  | PyFloat x => Ok x
  | PyInt z => Ok (float_of_Z z)
  | PyNone => Ok nan
  | PyStr s =>
      match NilZero.int_of_string s with
      | Some d => Ok (float_of_Z (Z.of_int d))
      | None => Raise ValueError
      end
  | _ => Raise TypeError
  end.

Definition as_float (v : pyval) : result float :=
  match v with
  | PyFloat x => Ok x
  | _ => Raise TypeError
  end.

Definition as_seconds (v : pyval) : result Z :=
  match v with
  | PyInt z => Ok z
  | _ => Raise TypeError
  end.

Definition on_values (f : pyval -> result pyval) (df : frame) : result frame :=
  map_result (fun r => v <-- f (snd r) ;; Ok (fst r, v)) df.

Definition index_to_datetime (df : frame) : result frame :=
  map_result (fun r => t <-- as_seconds (fst r) ;; Ok (PyInt t, snd r)) df.

Definition astype_float (col : string) (df : frame) : result frame :=
  on_values (fun v => x <-- to_float v ;; Ok (PyFloat x)) df.

Definition iloc (i j : Z) (df : frame) : result float :=
  if j =? 0 then
    match py_index df i with
    | Some r => as_float (snd r)
    | None => Raise IndexError
    end
  else Raise IndexError.

Definition sub_scalar (col : string) (c : float) (df : frame) : result frame :=
  on_values (fun v => x <-- as_float v ;; Ok (PyFloat (x - c)%float)) df.

(** The values strictly between [a] and [b] over a gap of [gap] missing
    entries. *)
Definition fill (a b : float) (gap : nat) : list float :=
  map
    (fun j =>
       (a + (b - a) * float_of_Z (Z.of_nat j)
              / float_of_Z (Z.of_nat (S gap)))%float)
    (seq 1 gap).

Fixpoint interpolate_from (a : float) (gap : nat) (l : list float)
    : list float :=
  match l with
  | [] => repeat a gap
  | x :: l' =>
      if is_nan x then interpolate_from a (S gap) l'
      else fill a x gap ++ x :: interpolate_from x 0 l'
  end.

(** Linear interpolation, forward: leading gaps stay, trailing gaps repeat
    the last value. *)
Fixpoint interpolate_values (l : list float) : list float :=
  match l with
  | [] => []
  | x :: l' =>
      if is_nan x then x :: interpolate_values l'
      else x :: interpolate_from x 0 l'
  end.

Definition interpolate (df : frame) : result frame :=
  vs <-- map_result as_float (map snd df) ;;
  Ok (combine (map fst df) (map PyFloat (interpolate_values vs))).

Fixpoint strip_s (s : string) : option string :=
  match s with
  | EmptyString => None
  | String c EmptyString =>
      if Ascii.eqb c "s"%char then Some EmptyString else None
  | String c s' => option_map (String c) (strip_s s')
  end.

Definition parse_rule (rule : string) : result Z :=
  match strip_s rule with
  | Some digits =>
      match NilZero.int_of_string digits with
      | Some d =>
          if Z.of_int d =? 0 then Raise ZeroDivisionError
          else if Z.of_int d <? 0 then Raise ValueError
          else Ok (Z.of_int d)
      | None => Raise ValueError
      end
  | None => Raise ValueError
  end.

Definition mean_of (l : list float) : float :=
  let valid := filter (fun x => negb (is_nan x)) l in
  match valid with
  | [] => nan
  | _ =>
      (fold_left PrimFloat.add valid 0 / float_of_Z (Z.of_nat (List.length valid)))%float
  end.

(** Bins of [k] seconds counted from the midnight before the first
    timestamp; a bin without a sample is a gap. *)
Definition resample_mean (rule : string) (df : frame) : result frame :=
  k <-- parse_rule rule ;;
  ts <-- map_result as_seconds (map fst df) ;;
  vs <-- map_result as_float (map snd df) ;;
  match ts with
  | [] => Ok []
  | t0 :: _ =>
      let tmin := fold_left Z.min ts t0 in
      let tmax := fold_left Z.max ts t0 in
      let origin := tmin / 86400 * 86400 in
      let bin := fun t => (t - origin) / k in
      let count := bin tmax - bin tmin + 1 in
      Ok (map
            (fun j =>
               let b := bin tmin + Z.of_nat j in
               let inside :=
                 filter (fun tv => bin (fst tv) =? b) (combine ts vs) in
               (PyInt (origin + b * k), PyFloat (mean_of (map snd inside))))
            (seq 0 (Z.to_nat count)))
  end.

Definition column_values (col : string) (df : frame) : result (list float) :=
  map_result as_float (map snd df).

Definition sum (a : ndarray) : float := fold_left PrimFloat.add (data a) 0%float.

#[export] Instance libraries : Libraries := {|
  DataFrame := frame;
  pd_DataFrame := make_frame;
  df_set_index := fun _ df => Ok df;
  df_index_to_datetime := index_to_datetime;
  df_astype_float := astype_float;
  df_iloc := iloc;
  df_sub_scalar := sub_scalar;
  df_interpolate := interpolate;
  df_resample_mean := resample_mean;
  df_values := column_values;
  np_sum := sum
|}.

End Reference.

(** ** Concrete backends *)
Module Backends.

Definition series (samples : list (Z * string)) : pyval :=
  PyList (map (fun tv => PyList [PyInt (fst tv); PyStr (snd tv)]) samples).

Definition pod (ip : string) : pyval :=
  PyDict [("metric", PyDict [("host_ip", PyStr ip)]);
          ("values", PyList [PyList [PyInt 1700000000; PyStr "1"]])].

Definition response (samples : list (Z * string)) (pods : list pyval) : pyval :=
  PyList [PyList [PyDict [("metric", PyDict []); ("values", series samples)]];
          PyList pods].

Definition node_labels (instance : string) : pyval :=
  PyList
    [PyDict
       [("metric",
         PyDict [("label_node_kubernetes_io_instance_type", PyStr instance)])]].

(** A backend that answers every call: the throughput samples and the pods
    are fixed, every node is of one instance type. *)
Definition steady (samples : list (Z * string)) (pods : list pyval)
    (instance : string) : Outside := {|
  get_token := fun _ => Ok (PyStr "ghp_token");
  action_handler_init := fun _ _ => Ok tt;
  fetch_update_push_upf_sizing := fun _ _ => Ok tt;
  ec2_cost_calculator :=
    fun _ name =>
      if String.eqb name "m4.large" then Ok (PyFloat 0.1%float)
      else Ok (PyFloat 0.0416%float);
  prom_query_rl_upf_experiment1 :=
    fun _ => Ok (PyList [PyStr "throughput"; PyStr "pods"]);
  run_queries :=
    fun _ c =>
      match prom_queries c with
      | QueriesByFunction _ => Ok (response samples pods)
      | QueriesByList _ => Ok (node_labels instance)
      | NoQueries => Raise (ExternalError "PromClient" "no queries set")
      end
|}.

Definition busy_samples : list (Z * string) :=
  [(1700000000, "1000"); (1700000015, "1500"); (1700000030, "2500")].

Definition idle_samples : list (Z * string) :=
  [(1700000000, "1000"); (1700000015, "1000")].

Definition busy : Outside := steady busy_samples [pod "10.0.1.23"] "m4.large".

Definition busy_other_pods : Outside :=
  steady busy_samples [pod "10.0.7.7"; pod "10.0.7.8"] "t3.medium".

Definition idle : Outside := steady idle_samples [pod "10.0.1.23"] "m4.large".

(** Prometheus is unreachable. *)
Definition prometheus_down : Outside := {|
  get_token := get_token busy;
  action_handler_init := action_handler_init busy;
  fetch_update_push_upf_sizing := fetch_update_push_upf_sizing busy;
  ec2_cost_calculator := ec2_cost_calculator busy;
  prom_query_rl_upf_experiment1 := prom_query_rl_upf_experiment1 busy;
  run_queries :=
    fun _ _ => Raise (ExternalError "PromClient" "connection refused")
|}.

(** The push to the configuration repository is refused. *)
Definition push_refused : Outside := {|
  get_token := get_token busy;
  action_handler_init := action_handler_init busy;
  fetch_update_push_upf_sizing :=
    fun _ _ => Raise (ExternalError "ActionHandler" "push rejected");
  ec2_cost_calculator := ec2_cost_calculator busy;
  prom_query_rl_upf_experiment1 := prom_query_rl_upf_experiment1 busy;
  run_queries := run_queries busy
|}.

(** The environment built with the default arguments, before any call. *)
Definition default_env : FONPR_Env :=
  match
    __init__ default_render_mode default_window default_sample_rate
      default_obs_period
  with
  | Ok env => env
  | Raise _ => mk_env 0 0 0 0 "" (mk_Box (mk_ndarray (0, 0) []) (mk_ndarray (0, 0) []) (0, 0))
                 (mk_Discrete 0) None 0 None
  end.

Definition fresh : State := mk_State default_env [].

End Backends.

(** ** Backends that misbehave *)
Module Faults.

Import Backends.

(** The price list cannot be read. *)
Definition pricing_down : Outside := {|
  get_token := get_token busy;
  action_handler_init := action_handler_init busy;
  fetch_update_push_upf_sizing := fetch_update_push_upf_sizing busy;
  ec2_cost_calculator :=
    fun _ _ => Raise (ExternalError "ec2_cost_calculator" "no price list");
  prom_query_rl_upf_experiment1 := prom_query_rl_upf_experiment1 busy;
  run_queries := run_queries busy
|}.

(** The same backend at twice the prices. *)
Definition dearer : Outside := {|
  get_token := get_token busy;
  action_handler_init := action_handler_init busy;
  fetch_update_push_upf_sizing := fetch_update_push_upf_sizing busy;
  ec2_cost_calculator :=
    fun _ name =>
      if String.eqb name "m4.large" then Ok (PyFloat 0.2%float)
      else Ok (PyFloat 0.0832%float);
  prom_query_rl_upf_experiment1 := prom_query_rl_upf_experiment1 busy;
  run_queries := run_queries busy
|}.

(** A pod whose metric carries no [host_ip]. *)
Definition anonymous_pod : pyval :=
  PyDict [("metric", PyDict [("pod", PyStr "upf-0")]); ("values", PyList [])].

Definition no_host_ip : Outside :=
  steady busy_samples [anonymous_pod] "m4.large".

(** The throughput query matches no series. *)
Definition no_series : Outside := {|
  get_token := get_token busy;
  action_handler_init := action_handler_init busy;
  fetch_update_push_upf_sizing := fetch_update_push_upf_sizing busy;
  ec2_cost_calculator := ec2_cost_calculator busy;
  prom_query_rl_upf_experiment1 := prom_query_rl_upf_experiment1 busy;
  run_queries := fun _ _ => Ok (PyList [PyList []; PyList []])
|}.

(** The throughput query is answered, the node-label queries are not. *)
Definition node_labels_down : Outside := {|
  get_token := get_token busy;
  action_handler_init := action_handler_init busy;
  fetch_update_push_upf_sizing := fetch_update_push_upf_sizing busy;
  ec2_cost_calculator := ec2_cost_calculator busy;
  prom_query_rl_upf_experiment1 := prom_query_rl_upf_experiment1 busy;
  run_queries :=
    fun _ c =>
      match prom_queries c with
      | QueriesByList _ =>
          Raise (ExternalError "PromClient" "node labels unavailable")
      | _ => run_queries busy [] c
      end
|}.

(** Two samples 25 minutes apart: more than the 15 minutes of the window. *)
Definition long_span : Outside :=
  steady [(1700000000, "1000"); (1700001500, "2500")] [pod "10.0.1.23"]
    "m4.large".

End Faults.

(** * Properties *)

(** ** Sequencing *)

Lemma bind_inv {A B} (m : M A) (f : A -> M B) s r s' :
  bind m f s = (r, s') ->
  (exists a s1, m s = (Ok a, s1) /\ f a s1 = (r, s')) \/
  (exists e, m s = (Raise e, s') /\ r = Raise e).
Proof.
  unfold bind. destruct (m s) as [[a | e] s1] eqn:Hm; intro H.
  - left. exists a, s1. split; [reflexivity | exact H].
  - right. exists e. inversion H; subst. split; reflexivity.
Qed.

Lemma bind_ok_inv {A B} (m : M A) (f : A -> M B) s b s' :
  bind m f s = (Ok b, s') ->
  exists a s1, m s = (Ok a, s1) /\ f a s1 = (Ok b, s').
Proof.
  intro H. destruct (bind_inv _ _ _ H) as [(a & s1 & Hm & Hf) | (e & _ & He)].
  - exists a, s1. split; assumption.
  - discriminate He.
Qed.

Lemma bind_raise {A B} (m : M A) (f : A -> M B) s e s' :
  m s = (Raise e, s') -> bind m f s = (Raise e, s').
Proof. intro H. unfold bind. rewrite H. reflexivity. Qed.

Lemma bind_ok {A B} (m : M A) (f : A -> M B) s a s1 :
  m s = (Ok a, s1) -> bind m f s = f a s1.
Proof. intro H. unfold bind. rewrite H. reflexivity. Qed.

Lemma call_inv {A} ev (answer : list event -> result A) s r s' :
  call ev answer s = (r, s') ->
  answer (history s) = r /\ s' = mk_State (self s) (history s ++ [ev]).
Proof. intro H. inversion H. split; reflexivity. Qed.

Lemma lift_inv {A} (x : result A) s r s' :
  lift x s = (r, s') -> x = r /\ s' = s.
Proof. intro H. inversion H. split; reflexivity. Qed.

Lemma get_self_inv s r s' :
  get_self s = (r, s') -> r = Ok (self s) /\ s' = s.
Proof. intro H. inversion H. split; reflexivity. Qed.

Lemma ret_inv {A} (a : A) s r s' : ret a s = (r, s') -> r = Ok a /\ s' = s.
Proof. intro H. inversion H. split; reflexivity. Qed.

(** ** What a computation does to the state *)

Lemma emits_refl P s : emits P s s.
Proof.
  split; [reflexivity |]. exists []. split; [now rewrite app_nil_r | constructor].
Qed.

Lemma emits_trans P s1 s2 s3 : emits P s1 s2 -> emits P s2 s3 -> emits P s1 s3.
Proof.
  intros [E1 (d1 & H1 & F1)] [E2 (d2 & H2 & F2)]. split; [congruence |].
  exists (d1 ++ d2). split.
  - rewrite H2, H1, app_assoc. reflexivity.
  - apply Forall_app. split; assumption.
Qed.

Section Steps.

Variable R : State -> State -> Prop.
Hypothesis R_refl : forall s, R s s.
Hypothesis R_trans : forall s1 s2 s3, R s1 s2 -> R s2 s3 -> R s1 s3.

Lemma steps_to_ret {A} (a : A) : steps_to R (ret a).
Proof. intros s r s' H. inversion H; subst. apply R_refl. Qed.

Lemma steps_to_lift {A} (x : result A) : steps_to R (lift x).
Proof. intros s r s' H. inversion H; subst. apply R_refl. Qed.

Lemma steps_to_get_self : steps_to R get_self.
Proof. intros s r s' H. inversion H; subst. apply R_refl. Qed.

Lemma steps_to_bind {A B} (m : M A) (f : A -> M B) :
  steps_to R m -> (forall a, steps_to R (f a)) -> steps_to R (bind m f).
Proof.
  intros Hm Hf s r s' H.
  destruct (bind_inv _ _ _ H) as [(a & s1 & H1 & H2) | (e & H1 & _)].
  - eapply R_trans; [eapply Hm | eapply Hf]; eassumption.
  - eapply Hm; eassumption.
Qed.

End Steps.

Lemma emits_call {A} P ev (answer : list event -> result A) :
  P ev = true -> steps_to (emits P) (call ev answer).
Proof.
  intros HP s r s' H. inversion H; subst. split; [reflexivity |].
  exists [ev]. split; [reflexivity | repeat constructor; exact HP].
Qed.

Lemma new_events_app s s' d :
  history s' = history s ++ d -> new_events s s' = d.
Proof.
  intro H. unfold new_events. rewrite H.
  rewrite skipn_app, skipn_all, Nat.sub_diag. reflexivity.
Qed.

Lemma dispatched_app d1 d2 :
  dispatched (d1 ++ d2) = dispatched d1 ++ dispatched d2.
Proof. unfold dispatched. apply flat_map_app. Qed.

Lemma dispatched_none (P : event -> bool) d :
  (forall h, P (FetchUpdatePushUpfSizing h) = false) ->
  Forall (fun ev => P ev = true) d -> dispatched d = [].
Proof.
  intros HP F. induction F as [| ev d Hev _ IH]; [reflexivity |].
  simpl. rewrite IH. destruct ev; try reflexivity.
  rewrite HP in Hev. discriminate Hev.
Qed.

Lemma filter_none {A} (P Q : A -> bool) d :
  (forall x, P x = true -> Q x = false) ->
  Forall (fun x => P x = true) d -> filter Q d = [].
Proof.
  intros HPQ F. induction F as [| x d Hx _ IH]; [reflexivity |].
  simpl. rewrite (HPQ x Hx). exact IH.
Qed.

(** ** Frames *)

Lemma same_config_refl e : same_config e e.
Proof. repeat split. Qed.

Lemma same_config_trans e1 e2 e3 :
  same_config e1 e2 -> same_config e2 e3 -> same_config e1 e3.
Proof. unfold same_config. intuition congruence. Qed.

Lemma same_but_counter_refl e : same_but_counter e e.
Proof. split; [apply same_config_refl | reflexivity]. Qed.

Lemma same_but_counter_trans e1 e2 e3 :
  same_but_counter e1 e2 -> same_but_counter e2 e3 -> same_but_counter e1 e3.
Proof.
  intros [C1 S1] [C2 S2]. split; [eapply same_config_trans; eassumption | congruence].
Qed.

Lemma same_but_seed_refl e : same_but_seed e e.
Proof. split; [apply same_config_refl | reflexivity]. Qed.

Lemma same_but_seed_trans e1 e2 e3 :
  same_but_seed e1 e2 -> same_but_seed e2 e3 -> same_but_seed e1 e3.
Proof.
  intros [C1 S1] [C2 S2]. split; [eapply same_config_trans; eassumption | congruence].
Qed.

Section Evolves.

Variable Q : FONPR_Env -> FONPR_Env -> Prop.
Hypothesis Q_refl : forall e, Q e e.
Hypothesis Q_trans : forall e1 e2 e3, Q e1 e2 -> Q e2 e3 -> Q e1 e3.
Variable P : event -> bool.

Lemma evolves_refl s : evolves Q P s s.
Proof.
  split; [apply Q_refl |]. exists []. split; [now rewrite app_nil_r | constructor].
Qed.

Lemma evolves_trans s1 s2 s3 :
  evolves Q P s1 s2 -> evolves Q P s2 s3 -> evolves Q P s1 s3.
Proof.
  intros [E1 (d1 & H1 & F1)] [E2 (d2 & H2 & F2)]. split; [eauto |].
  exists (d1 ++ d2). split.
  - rewrite H2, H1, app_assoc. reflexivity.
  - apply Forall_app. split; assumption.
Qed.

Lemma emits_evolves P0 s s' :
  (forall ev, P0 ev = true -> P ev = true) ->
  emits P0 s s' -> evolves Q P s s'.
Proof.
  intros HP [E (d & H & F)]. split; [rewrite E; apply Q_refl |].
  exists d. split; [exact H |]. eapply Forall_impl; [| exact F]. exact HP.
Qed.

Lemma evolves_of_emits P0 {A} (m : M A) :
  (forall ev, P0 ev = true -> P ev = true) ->
  steps_to (emits P0) m -> steps_to (evolves Q P) m.
Proof.
  intros HP Hm s r s' H. eapply emits_evolves; [exact HP |]. eapply Hm, H.
Qed.

Lemma evolves_bind {A B} (m : M A) (f : A -> M B) :
  steps_to (evolves Q P) m -> (forall a, steps_to (evolves Q P) (f a)) ->
  steps_to (evolves Q P) (bind m f).
Proof. apply steps_to_bind, evolves_trans. Qed.

Lemma evolves_ret {A} (a : A) : steps_to (evolves Q P) (ret a).
Proof. apply steps_to_ret, evolves_refl. Qed.

Lemma evolves_call {A} ev (answer : list event -> result A) :
  P ev = true -> steps_to (evolves Q P) (call ev answer).
Proof.
  intros HP s r s' H. inversion H; subst. split; [apply Q_refl |].
  exists [ev]. split; [reflexivity | repeat constructor; exact HP].
Qed.

End Evolves.

(** ** The stages of [_get_obs] and [step] *)

Section Stages.

Context {L : Libraries}.
Variable W : Outside.

Create HintDb stage.

Lemma emits_ret P {A} (a : A) : steps_to (emits P) (ret a).
Proof. apply steps_to_ret, emits_refl. Qed.

Lemma emits_lift P {A} (x : result A) : steps_to (emits P) (lift x).
Proof. apply steps_to_lift, emits_refl. Qed.

Lemma emits_get_self P : steps_to (emits P) get_self.
Proof. apply steps_to_get_self, emits_refl. Qed.

Lemma emits_bind P {A B} (m : M A) (f : A -> M B) :
  steps_to (emits P) m -> (forall a, steps_to (emits P) (f a)) ->
  steps_to (emits P) (bind m f).
Proof. apply steps_to_bind, emits_trans. Qed.

Ltac emits_steps :=
  repeat first
    [ apply emits_bind; [| intro]
    | apply emits_lift
    | apply emits_ret
    | apply emits_get_self
    | apply emits_call; reflexivity ].

Lemma process_pod_emits client pod :
  steps_to (emits is_query) (process_pod W client pod).
Proof. unfold process_pod. emits_steps. Qed.

Lemma process_pods_emits items : forall client i pods,
  steps_to (emits is_query) (process_pods W client i pods items).
Proof.
  induction items as [| pod rest IH]; intros client i pods; simpl.
  - apply emits_ret.
  - apply emits_bind; [apply process_pod_emits | intro r; apply IH].
Qed.

Lemma collect_pods_emits client prom_response :
  steps_to (emits is_query) (collect_pods W client prom_response).
Proof.
  unfold collect_pods. emits_steps. apply process_pods_emits.
Qed.

#[local] Hint Resolve process_pods_emits collect_pods_emits : stage.

Lemma _get_obs_emits : steps_to (emits is_query) (_get_obs W).
Proof.
  unfold _get_obs.
  do 5 (apply emits_bind; [emits_steps | intro]).
  apply emits_bind; [auto with stage | intro; apply emits_ret].
Qed.

Lemma transition_to_emits size :
  steps_to (emits is_handler_call) (transition_to W size).
Proof. unfold transition_to. emits_steps. Qed.

Lemma apply_action_emits action :
  steps_to (emits is_handler_call) (apply_action W action).
Proof.
  unfold apply_action.
  destruct (action =? 0); [emits_steps |].
  destruct (action =? 1); [apply transition_to_emits |].
  destruct (action =? 2); [apply transition_to_emits | apply emits_ret].
Qed.

(** What [transition_to] pushes when it returns. *)
Lemma transition_to_ok size s s' :
  transition_to W size s = (Ok tt, s') ->
  exists d, history s' = history s ++ d /\ dispatched d = [upf_request size].
Proof.
  unfold transition_to. intro H.
  apply bind_ok_inv in H. destruct H as (token & s1 & H1 & H).
  apply bind_ok_inv in H. destruct H as ([] & s2 & H2 & H3).
  inversion H1; subst; clear H1. inversion H2; subst; clear H2.
  inversion H3; subst; clear H3. simpl.
  eexists. split; [rewrite <- !app_assoc; reflexivity | reflexivity].
Qed.

(** A [step] that returns went through every stage. *)
Lemma step_ok_inv action s res s' :
  step W action s = (Ok res, s') ->
  exists s1 obs s4,
    apply_action W action s = (Ok tt, s1) /\
    _get_obs W (before_obs s1) = (Ok obs, s4) /\
    res = mk_step_result obs (rxtx_value * np_sum obs)%float false
            (step_counter (self (counted s4)) mod 6 =? 0) (PyDict []) /\
    s' = counted s4.
Proof.
  unfold step. intro H.
  apply bind_ok_inv in H. destruct H as ([] & s1 & Ha & H).
  apply bind_ok_inv in H. destruct H as ([] & s2 & Hs & H).
  apply bind_ok_inv in H. destruct H as (li & s3 & Hli & H).
  apply bind_ok_inv in H. destruct H as (si & s3' & Hsi & H).
  apply bind_ok_inv in H. destruct H as (obs & s4 & Ho & H).
  inversion Hs; subst; clear Hs. inversion Hli; subst; clear Hli.
  inversion Hsi; subst; clear Hsi. simpl in Ho.
  exists s1, obs, s4. split; [exact Ha |]. split.
  - unfold before_obs. rewrite <- Ho. rewrite <- !app_assoc. reflexivity.
  - cbv [bind _get_info ret get_self put_self] in H. simpl in H.
    inversion H; subst; clear H. split; [| reflexivity].
    f_equal. simpl. destruct (_ =? 0); reflexivity.
Qed.

Lemma step_unfold action :
  step W action = bind (apply_action W action) (fun _ => observe_and_count W).
Proof. reflexivity. Qed.

Lemma counter_update_kept e :
  same_but_counter e (set_step_counter (step_counter e + 1) e).
Proof. repeat split. Qed.

Lemma seed_update_kept sd e : same_but_seed e (set_np_random_seed sd e).
Proof. repeat split. Qed.

Lemma query_after_sleep ev : is_query ev = true -> after_sleep ev = true.
Proof. destruct ev; intro E; try discriminate E; reflexivity. Qed.

(** Lines 120 to 139 sleep ten seconds first; what follows neither sleeps
    nor touches the action handler, and only [step_counter] is assigned. *)
Lemma observe_and_count_inv s r s' :
  observe_and_count W s = (r, s') ->
  same_but_counter (self s) (self s') /\
  exists d,
    history s' = history s ++ Sleep 10 :: d /\
    Forall (fun ev => after_sleep ev = true) d.
Proof.
  unfold observe_and_count. intro H.
  apply bind_inv in H. destruct H as [([] & s1 & H1 & H) | (e & H1 & _)];
    [| discriminate H1].
  inversion H1; subst; clear H1.
  apply bind_inv in H. destruct H as [(li & s2 & H2 & H) | (e & H2 & _)];
    inversion H2; subst; clear H2; simpl.
  2: { split; [apply same_but_counter_refl |].
       exists [Ec2CostCalculator "m4.large"].
       split; [now rewrite <- app_assoc | repeat constructor]. }
  apply bind_inv in H. destruct H as [(si & s3 & H3 & H) | (e & H3 & _)];
    inversion H3; subst; clear H3; simpl.
  2: { split; [apply same_but_counter_refl |].
       exists [Ec2CostCalculator "m4.large"; Ec2CostCalculator "t3.medium"].
       split; [now rewrite <- !app_assoc | repeat constructor]. }
  simpl in H.
  apply bind_inv in H. destruct H as [(obs & s4 & H4 & H) | (e & H4 & _)].
  - apply _get_obs_emits in H4. destruct H4 as [E (d & Hd & F)]. simpl in *.
    cbv [bind _get_info ret get_self put_self] in H. simpl in H.
    inversion H; subst; clear H. simpl. split.
    + rewrite E. apply counter_update_kept.
    + exists ([Ec2CostCalculator "m4.large"; Ec2CostCalculator "t3.medium"] ++ d).
      split; [rewrite Hd, <- !app_assoc; reflexivity |].
      apply Forall_app. split; [repeat constructor |].
      eapply Forall_impl; [| exact F]. exact query_after_sleep.
  - apply _get_obs_emits in H4. destruct H4 as [E (d & Hd & F)]. simpl in *.
    split; [rewrite E; apply same_but_counter_refl |].
    exists ([Ec2CostCalculator "m4.large"; Ec2CostCalculator "t3.medium"] ++ d).
    split; [rewrite Hd, <- !app_assoc; reflexivity |].
    apply Forall_app. split; [repeat constructor |].
    eapply Forall_impl; [| exact F]. exact query_after_sleep.
Qed.

(** Every run of [step]: the action, then the rest. *)
Lemma step_inv action s r s' :
  step W action s = (r, s') ->
  exists ra s1,
    apply_action W action s = (ra, s1) /\
    emits is_handler_call s s1 /\
    ((exists e, ra = Raise e /\ r = Raise e /\ s' = s1) \/
     (ra = Ok tt /\ observe_and_count W s1 = (r, s'))).
Proof.
  rewrite step_unfold. intro H.
  apply bind_inv in H. destruct H as [([] & s1 & H1 & H) | (e & H1 & ->)].
  - exists (Ok tt), s1. split; [exact H1 |]. split.
    + eapply apply_action_emits, H1.
    + right. split; [reflexivity | exact H].
  - exists (Raise e), s'. split; [exact H1 |]. split.
    + eapply apply_action_emits, H1.
    + left. exists e. repeat split.
Qed.

(** [step] assigns [step_counter] only. *)
Lemma step_keeps action : steps_to (evolves same_but_counter (fun _ => true)) (step W action).
Proof.
  intros s r s' H. apply step_inv in H.
  destruct H as (ra & s1 & _ & [E1 (d1 & H1 & F1)] & [(e & _ & _ & ->) | [_ H]]).
  - split; [rewrite E1; apply same_but_counter_refl |].
    exists d1. split; [exact H1 |]. eapply Forall_impl; [| exact F1]. reflexivity.
  - apply observe_and_count_inv in H. destruct H as [K (d & Hd & F)].
    split; [rewrite <- E1; exact K |].
    exists (d1 ++ Sleep 10 :: d). split; [rewrite Hd, H1, <- app_assoc; reflexivity |].
    apply Forall_forall. reflexivity.
Qed.

Lemma Env_reset_keeps seed :
  steps_to (evolves same_but_seed (fun _ => true)) (Env_reset seed).
Proof.
  intros s r s' H. unfold Env_reset in H. destruct seed as [sd |].
  - destruct (sd <? 0); inversion H; subst; clear H.
    + apply evolves_refl, same_but_seed_refl.
    + split; [apply seed_update_kept |].
      exists []. split; [simpl; now rewrite app_nil_r | constructor].
  - inversion H; subst. apply evolves_refl, same_but_seed_refl.
Qed.

(** [reset] assigns the seed of [np_random] only. *)
Lemma reset_keeps seed options :
  steps_to (evolves same_but_seed (fun _ => true)) (reset W seed options).
Proof.
  unfold reset.
  apply evolves_bind; [apply same_but_seed_trans | apply Env_reset_keeps | intro].
  apply evolves_bind; [apply same_but_seed_trans | | intro].
  - eapply evolves_of_emits; [apply same_but_seed_refl | | apply _get_obs_emits].
    reflexivity.
  - apply evolves_bind; [apply same_but_seed_trans | | intro];
      apply evolves_ret, same_but_seed_refl.
Qed.

End Stages.

(** ** Running [_get_obs] *)

Section Observation.

Context {L : Libraries}.
Variable W : Outside.

(** When the first query is answered and the throughput values fit, what is
    left of [_get_obs] is the loop over the pods. *)
Lemma _get_obs_run s q resp vals padded :
  prom_query_rl_upf_experiment1 W (history s) = Ok q ->
  run_queries W (history s ++ [PromQueryRlUpfExperiment1]) (advisor q) = Ok resp ->
  throughput_values (sample_rate (self s)) resp = Ok vals ->
  prepend_zeroes (samples (self s)) vals = Ok padded ->
  _get_obs W s =
  bind (collect_pods W (advisor q) resp)
    (fun _ => ret (reshape_column padded)) (queried s q).
Proof.
  intros Hq Hr Hv Hp. unfold _get_obs.
  unfold bind at 1. unfold call at 1. rewrite Hq.
  unfold bind at 1. unfold call at 1. simpl. rewrite Hr.
  unfold bind at 1. unfold get_self at 1. simpl.
  unfold bind at 1. unfold lift at 1. rewrite Hv.
  unfold bind at 1. unfold lift at 1. rewrite Hp.
  unfold queried. rewrite <- app_assoc. reflexivity.
Qed.

(** An observation that is returned was computed from the first answer. *)
Lemma _get_obs_ok_inv s obs s' :
  _get_obs W s = (Ok obs, s') ->
  exists resp vals padded,
    first_response W (history s) = Ok resp /\
    throughput_values (sample_rate (self s)) resp = Ok vals /\
    prepend_zeroes (samples (self s)) vals = Ok padded /\
    obs = reshape_column padded.
Proof.
  unfold _get_obs. intro H.
  apply bind_ok_inv in H. destruct H as (q & s1 & H1 & H).
  apply bind_ok_inv in H. destruct H as (resp & s2 & H2 & H).
  apply bind_ok_inv in H. destruct H as (env & s3 & H3 & H).
  apply bind_ok_inv in H. destruct H as (vals & s4 & H4 & H).
  apply bind_ok_inv in H. destruct H as (padded & s5 & H5 & H).
  apply bind_ok_inv in H. destruct H as (pods & s6 & H6 & H).
  apply call_inv in H1. destruct H1 as [Hq ->].
  apply call_inv in H2. destruct H2 as [Hr ->]. simpl in Hr.
  apply get_self_inv in H3. destruct H3 as [He ->].
  injection He as <-. simpl in H4, H5.
  apply lift_inv in H4. destruct H4 as [Hv ->].
  apply lift_inv in H5. destruct H5 as [Hp ->].
  apply ret_inv in H. destruct H as [Ho _]. injection Ho as ->.
  exists resp, vals, padded.
  unfold first_response, result_bind. rewrite Hq.
  repeat split; assumption.
Qed.

(** The padded values have [samples] entries. *)
Lemma prepend_zeroes_length n vals padded :
  prepend_zeroes n vals = Ok padded -> Z.of_nat (List.length padded) = n.
Proof.
  unfold prepend_zeroes, np_zeros, np_insert_front, result_bind.
  destruct (Z.of_nat (List.length vals) =? n) eqn:E; simpl.
  - intro H. inversion H; subst. apply Z.eqb_eq, E.
  - destruct (n - Z.of_nat (List.length vals) <? 0) eqn:E'; intro H;
      inversion H; subst; clear H.
    apply Z.ltb_ge in E'.
    rewrite length_app, repeat_length. lia.
Qed.

(** With at most [samples] values, zeroes are prepended up to [samples]. *)
Lemma prepend_zeroes_fits n vals :
  Z.of_nat (List.length vals) <= n ->
  prepend_zeroes n vals =
  Ok (repeat 0%float (Z.to_nat (n - Z.of_nat (List.length vals))) ++ vals).
Proof.
  intro Hle. unfold prepend_zeroes, np_zeros, np_insert_front, result_bind.
  destruct (Z.of_nat (List.length vals) =? n) eqn:E; simpl.
  - apply Z.eqb_eq in E. rewrite E, Z.sub_diag. reflexivity.
  - destruct (n - Z.of_nat (List.length vals) <? 0) eqn:E'; [| reflexivity].
    apply Z.ltb_lt in E'. lia.
Qed.

Lemma __init___samples render_mode w r p env :
  __init__ render_mode w r p = Ok env ->
  window env = w /\ sample_rate env = r /\ samples env = w * r /\
  obs_period env = p /\ instance_size env = "Large" /\
  action_space env = mk_Discrete 3 /\ step_counter env = 0 /\
  observation_space env =
    mk_Box (mk_ndarray (w * r, 1) (repeat 0%float (Z.to_nat (w * r))))
      (mk_ndarray (w * r, 1) (repeat infinity (Z.to_nat (w * r))))
      (w * r, 1).
Proof.
  unfold __init__, np_tile_scalar, result_bind.
  destruct (w * r <? 0); [discriminate |].
  intro H. inversion H; subst; clear H. simpl. repeat split.
Qed.

End Observation.

(** ** The claims about [step] and [reset] *)

Section Claims.

Context {L : Libraries}.
Variable W : Outside.

Lemma slept_app d1 d2 : slept (d1 ++ d2) = slept d1 ++ slept d2.
Proof. unfold slept. apply flat_map_app. Qed.

Lemma slept_none (P : event -> bool) d :
  (forall n, P (Sleep n) = false) ->
  Forall (fun ev => P ev = true) d -> slept d = [].
Proof.
  intros HP F. induction F as [| ev d Hev _ IH]; [reflexivity |].
  simpl. rewrite IH. destruct ev; try reflexivity.
  rewrite HP in Hev. discriminate Hev.
Qed.

(** The calls of a run of [step]: those of the action, the [sleep], the
    rest. *)
Lemma step_events action s r s' :
  step W action s = (r, s') ->
  exists ra s1 before,
    apply_action W action s = (ra, s1) /\
    history s1 = history s ++ before /\
    Forall (fun ev => is_handler_call ev = true) before /\
    ((exists e, ra = Raise e /\ r = Raise e /\ s' = s1) \/
     (ra = Ok tt /\
      exists after,
        new_events s s' = before ++ Sleep 10 :: after /\
        Forall (fun ev => after_sleep ev = true) after)).
Proof.
  intro H. apply step_inv in H.
  destruct H as (ra & s1 & Ha & [E1 (d1 & H1 & F1)] & Hcase).
  exists ra, s1, d1. repeat split; try assumption.
  destruct Hcase as [(e & -> & -> & ->) | [-> H]].
  - left. exists e. repeat split.
  - right. split; [reflexivity |].
    apply observe_and_count_inv in H. destruct H as [_ (d & Hd & F)].
    exists d. split; [| exact F].
    apply new_events_app. rewrite Hd, H1, <- app_assoc. reflexivity.
Qed.

(** The reward [step] computes, with any action: [rxtx_value], 3.33e-9
    dollars per byte, times the sum of the returned observation, and nothing
    else.  [li_cost] and [si_cost] are looked up and never used. *)
Theorem step_reward_is_revenue action s res s' :
  step W action s = (Ok res, s') ->
  reward res = (rxtx_value * np_sum (observation res))%float.
Proof.
  intro H. apply step_ok_inv in H.
  destruct H as (s1 & obs & s4 & _ & _ & -> & _). reflexivity.
Qed.

(** C2.  The action space is [Discrete(3)].  Action 0 pushes nothing to the
    configuration repository, whatever happens next; a [step] with action 1
    that returns has pushed exactly one update, of the UPF to "Large"; with
    action 2, exactly one, of the UPF to "Small". *)
Theorem step_dispatches_by_action :
  (forall render_mode window sample_rate obs_period env,
     __init__ render_mode window sample_rate obs_period = Ok env ->
     action_space env = mk_Discrete 3) /\
  (forall s r s',
     step W 0 s = (r, s') -> dispatched (new_events s s') = []) /\
  (forall s res s',
     step W 1 s = (Ok res, s') ->
     dispatched (new_events s s') = [upf_request "Large"]) /\
  (forall s res s',
     step W 2 s = (Ok res, s') ->
     dispatched (new_events s s') = [upf_request "Small"]).
Proof.
  assert (Hrest : forall after,
             Forall (fun ev => after_sleep ev = true) after ->
             dispatched (Sleep 10 :: after) = []).
  { intros after F. simpl. eapply dispatched_none; [| exact F]. reflexivity. }
  assert (Hsize : forall action size s res s',
             apply_action W action = transition_to W size ->
             step W action s = (Ok res, s') ->
             dispatched (new_events s s') = [upf_request size]).
  { intros action size s res s' Hact H. apply step_events in H.
    destruct H as (ra & s1 & before & Ha & Hb & _ & Hcase).
    destruct Hcase as [(e & _ & He & _) | [-> (after & Hn & F)]];
      [discriminate He |].
    rewrite Hact in Ha. apply transition_to_ok in Ha.
    destruct Ha as (d & Hd & Hdisp).
    rewrite Hd in Hb. apply app_inv_head in Hb. subst d.
    rewrite Hn, dispatched_app, Hdisp, (Hrest _ F). reflexivity. }
  split; [| split; [| split]].
  - intros rm w r p env H. apply __init___samples in H. tauto.
  - intros s r s' H. apply step_events in H.
    destruct H as (ra & s1 & before & Ha & Hb & _ & Hcase).
    apply call_inv in Ha. destruct Ha as [<- ->]. simpl in Hb.
    apply app_inv_head in Hb. subst before.
    destruct Hcase as [(e & He & _) | [_ (after & Hn & F)]];
      [discriminate He |].
    rewrite Hn, dispatched_app, (Hrest _ F). reflexivity.
  - intros s res s'. apply Hsize. reflexivity.
  - intros s res s'. apply Hsize. reflexivity.
Qed.

(** C5.  Whatever the action and whatever [obs_period] the environment was
    built with, a [step] whose action went through sleeps once, for 10
    seconds, and makes no metrics query before that sleep. *)
Theorem step_sleeps_ten_seconds action s s1 r s' :
  apply_action W action s = (Ok tt, s1) ->
  step W action s = (r, s') ->
  slept (new_events s s') = [10] /\
  exists before after,
    new_events s s' = before ++ Sleep 10 :: after /\
    slept before = [] /\
    filter is_query before = [] /\
    slept after = [].
Proof.
  intros Ha H. apply step_events in H.
  destruct H as (ra & s1' & before & Ha' & _ & Fb & Hcase).
  rewrite Ha in Ha'. injection Ha' as <- <-.
  destruct Hcase as [(e & He & _) | [_ (after & Hn & Fa)]];
    [discriminate He |].
  assert (Sb : slept before = [])
    by (eapply slept_none; [| exact Fb]; reflexivity).
  assert (Sa : slept after = []).
  { eapply slept_none; [| exact Fa]. reflexivity. }
  split.
  - rewrite Hn, slept_app, Sb. simpl. rewrite Sa. reflexivity.
  - exists before, after. repeat split; try assumption.
    eapply filter_none; [| exact Fb]. intros []; simpl; congruence.
Qed.

(** C8.  A [step] that returns has incremented [step_counter] by exactly 1,
    and its [truncated] flag says whether the incremented counter is a
    multiple of 6.  So, over a run of steps from a counter at 0, the flag is
    set on every sixth step and on no other. *)
Theorem step_counts_and_truncates :
  (forall action s res s',
     step W action s = (Ok res, s') ->
     step_counter (self s') = step_counter (self s) + 1 /\
     truncated res = (step_counter (self s') mod 6 =? 0)) /\
  (forall actions s results s',
     run_steps W actions s = (Ok results, s') ->
     step_counter (self s') =
       step_counter (self s) + Z.of_nat (List.length actions) /\
     List.length results = List.length actions /\
     forall i res,
       nth_error results i = Some res ->
       truncated res = ((step_counter (self s) + Z.of_nat i + 1) mod 6 =? 0)).
Proof.
  assert (Hone : forall action s res s',
             step W action s = (Ok res, s') ->
             step_counter (self s') = step_counter (self s) + 1 /\
             truncated res = (step_counter (self s') mod 6 =? 0)).
  { intros action s res s' H. apply step_ok_inv in H.
    destruct H as (s1 & obs & s4 & Ha & Ho & -> & ->).
    apply apply_action_emits in Ha. destruct Ha as [E1 _].
    apply _get_obs_emits in Ho. destruct Ho as [E4 _].
    simpl in *. rewrite E4, E1. split; reflexivity. }
  split; [exact Hone |].
  induction actions as [| a rest IH]; intros s results s' H.
  - apply ret_inv in H. destruct H as [Hr ->]. injection Hr as ->.
    simpl. repeat split; [lia |]. intros [| i] res E; discriminate E.
  - simpl in H.
    apply bind_ok_inv in H. destruct H as (r1 & s1 & H1 & H).
    apply bind_ok_inv in H. destruct H as (rs & s2 & H2 & H).
    apply ret_inv in H. destruct H as [Hr ->]. injection Hr as ->.
    apply Hone in H1. destruct H1 as [C1 T1].
    apply IH in H2. destruct H2 as (C2 & Len & Nth).
    simpl List.length. repeat split.
    + rewrite C2, C1. lia.
    + now rewrite Len.
    + intros [| i] res E; simpl in E.
      * injection E as <-. rewrite T1, C1. f_equal. f_equal. lia.
      * rewrite (Nth _ _ E), C1. f_equal. f_equal. lia.
Qed.

(** C9.  Whatever the action and the answers of the backend, a [step] that
    returns reports [terminated = False]. *)
Theorem step_never_terminates action s res s' :
  step W action s = (Ok res, s') -> terminated res = false.
Proof.
  intro H. apply step_ok_inv in H.
  destruct H as (s1 & obs & s4 & _ & _ & -> & _). reflexivity.
Qed.

(** C10.  Whether it returns or raises, [step] leaves [window],
    [sample_rate], [samples], [obs_period], [instance_size],
    [observation_space], [action_space] and [render_mode] as they were (and
    the seed too: only [step_counter] is assigned); [reset] leaves the same
    eight fields as they were, and [step_counter] too. *)
Theorem step_and_reset_frame :
  (forall action s, same_but_counter (self s) (self (snd (step W action s)))) /\
  (forall seed options s,
     same_but_seed (self s) (self (snd (reset W seed options s)))).
Proof.
  split.
  - intros action s. destruct (step W action s) as [r s'] eqn:H.
    apply step_keeps in H. exact (proj1 H).
  - intros seed options s. destruct (reset W seed options s) as [r s'] eqn:H.
    apply reset_keeps in H. exact (proj1 H).
Qed.

(** C6.  In every state the environment can reach, [instance_size] is
    "Large": [__init__] sets it, and neither [reset] nor [step], with any
    action and whether it returns or raises, assigns it. *)
Theorem instance_size_stays_large s :
  reachable W s -> instance_size (self s) = "Large".
Proof.
  induction 1 as [rm w r p env h Hinit | s seed options r s' _ IH Hr
                 | s action r s' _ IH Hs].
  - apply __init___samples in Hinit. simpl. tauto.
  - apply reset_keeps in Hr. destruct Hr as [[C _] _].
    unfold same_config in C. rewrite <- IH. tauto.
  - apply step_keeps in Hs. destruct Hs as [[C _] _].
    unfold same_config in C. rewrite <- IH. tauto.
Qed.

End Claims.

(** ** Nothing is caught *)

Section Uncaught.

Context {L : Libraries}.
Variable W : Outside.

Lemma uncaught_nil h outcome : uncaught W h [] outcome.
Proof. intros d1 ev d2 e H. destruct d1; discriminate H. Qed.

Lemma uncaught_one h ev outcome :
  raised_by W h ev = outcome -> uncaught W h [ev] outcome.
Proof.
  intros Hev d1 ev' d2 e H Hr.
  destruct d1 as [| x d1]; simpl in H.
  - injection H as <- <-. rewrite app_nil_r in Hr. split; congruence.
  - injection H as _ H. destruct d1; discriminate H.
Qed.

(** The calls of a part that returned, then the calls of what followed. *)
Lemma uncaught_app h d1 d2 outcome :
  uncaught W h d1 None -> uncaught W (h ++ d1) d2 outcome ->
  uncaught W h (d1 ++ d2) outcome.
Proof.
  intros H1 H2 x ev y e Hsplit Hr.
  apply app_eq_app in Hsplit.
  destruct Hsplit as (l & [[Hd1 Hy] | [Hx Hd2]]).
  - destruct l as [| ev' l'].
    + rewrite app_nil_r in Hd1. subst x. simpl in Hy.
      apply (H2 [] ev y e); [symmetry; exact Hy |].
      rewrite app_nil_r. exact Hr.
    + simpl in Hy. injection Hy as <- ->.
      destruct (H1 x ev l' e Hd1 Hr) as [_ Hnone]. discriminate Hnone.
  - subst x. apply (H2 l ev y e Hd2). rewrite <- app_assoc. exact Hr.
Qed.

Lemma catches_nothing_ret {A} (a : A) : catches_nothing W (ret a).
Proof.
  intros s r s' H. apply ret_inv in H. destruct H as [-> ->].
  exists []. split; [now rewrite app_nil_r | apply uncaught_nil].
Qed.

Lemma catches_nothing_raise {A} e : catches_nothing W (@raise A e).
Proof.
  intros s r s' H. inversion H; subst.
  exists []. split; [now rewrite app_nil_r | apply uncaught_nil].
Qed.

Lemma catches_nothing_lift {A} (x : result A) : catches_nothing W (lift x).
Proof.
  intros s r s' H. apply lift_inv in H. destruct H as [_ ->].
  exists []. split; [now rewrite app_nil_r | apply uncaught_nil].
Qed.

Lemma catches_nothing_get_self : catches_nothing W get_self.
Proof.
  intros s r s' H. apply get_self_inv in H. destruct H as [_ ->].
  exists []. split; [now rewrite app_nil_r | apply uncaught_nil].
Qed.

Lemma catches_nothing_put_self e : catches_nothing W (put_self e).
Proof.
  intros s r s' H. inversion H; subst. simpl.
  exists []. split; [now rewrite app_nil_r | apply uncaught_nil].
Qed.

Lemma catches_nothing_call {A} ev (answer : list event -> result A) :
  (forall h, raised_by W h ev = error_of (answer h)) ->
  catches_nothing W (call ev answer).
Proof.
  intros Hev s r s' H. apply call_inv in H. destruct H as [<- ->].
  exists [ev]. split; [reflexivity | apply uncaught_one, Hev].
Qed.

Lemma catches_nothing_bind {A B} (m : M A) (f : A -> M B) :
  catches_nothing W m -> (forall a, catches_nothing W (f a)) ->
  catches_nothing W (bind m f).
Proof.
  intros Hm Hf s r s' H.
  apply bind_inv in H. destruct H as [(a & s1 & H1 & H2) | (e & H1 & ->)].
  - apply Hm in H1. destruct H1 as (d1 & Hd1 & U1).
    apply Hf in H2. destruct H2 as (d2 & Hd2 & U2).
    exists (d1 ++ d2). split; [rewrite Hd2, Hd1, app_assoc; reflexivity |].
    apply uncaught_app; [exact U1 | rewrite <- Hd1; exact U2].
  - apply Hm in H1. exact H1.
Qed.

Ltac uncaught_steps :=
  repeat first
    [ apply catches_nothing_bind; [| intro]
    | apply catches_nothing_lift
    | apply catches_nothing_ret
    | apply catches_nothing_raise
    | apply catches_nothing_get_self
    | apply catches_nothing_put_self
    | apply catches_nothing_call; reflexivity ].

Lemma process_pod_catches_nothing client pod :
  catches_nothing W (process_pod W client pod).
Proof. unfold process_pod. uncaught_steps. Qed.

Lemma process_pods_catches_nothing items : forall client i pods,
  catches_nothing W (process_pods W client i pods items).
Proof.
  induction items as [| pod rest IH]; intros client i pods; simpl.
  - apply catches_nothing_ret.
  - apply catches_nothing_bind;
      [apply process_pod_catches_nothing | intro r; apply IH].
Qed.

Lemma collect_pods_catches_nothing client resp :
  catches_nothing W (collect_pods W client resp).
Proof.
  unfold collect_pods.
  do 2 (apply catches_nothing_bind; [apply catches_nothing_lift | intro]).
  apply process_pods_catches_nothing.
Qed.

Lemma _get_obs_catches_nothing : catches_nothing W (_get_obs W).
Proof.
  unfold _get_obs.
  do 5 (apply catches_nothing_bind; [uncaught_steps | intro]).
  apply catches_nothing_bind;
    [apply collect_pods_catches_nothing | intro; apply catches_nothing_ret].
Qed.

Lemma Env_reset_catches_nothing seed : catches_nothing W (Env_reset seed).
Proof.
  unfold Env_reset. destruct seed as [sd |]; [| apply catches_nothing_ret].
  destruct (sd <? 0); [apply catches_nothing_raise |].
  apply catches_nothing_bind;
    [apply catches_nothing_get_self | intro; apply catches_nothing_put_self].
Qed.

Lemma reset_catches_nothing seed options :
  catches_nothing W (reset W seed options).
Proof.
  unfold reset.
  apply catches_nothing_bind; [apply Env_reset_catches_nothing | intro].
  apply catches_nothing_bind; [apply _get_obs_catches_nothing | intro].
  uncaught_steps.
Qed.

Lemma transition_to_catches_nothing size :
  catches_nothing W (transition_to W size).
Proof. unfold transition_to. uncaught_steps. Qed.

Lemma apply_action_catches_nothing action :
  catches_nothing W (apply_action W action).
Proof.
  unfold apply_action.
  destruct (action =? 0); [uncaught_steps |].
  destruct (action =? 1); [apply transition_to_catches_nothing |].
  destruct (action =? 2);
    [apply transition_to_catches_nothing | apply catches_nothing_ret].
Qed.

Lemma step_catches_nothing action : catches_nothing W (step W action).
Proof.
  rewrite step_unfold.
  apply catches_nothing_bind; [apply apply_action_catches_nothing | intro].
  unfold observe_and_count.
  do 3 (apply catches_nothing_bind; [uncaught_steps | intro]).
  apply catches_nothing_bind; [apply _get_obs_catches_nothing | intro].
  uncaught_steps.
Qed.

(** Read on the calls between the two states of a run. *)
Lemma catches_nothing_run {A} (m : M A) s r s' :
  catches_nothing W m -> m s = (r, s') ->
  uncaught W (history s) (new_events s s') (error_of r).
Proof.
  intros Hm H. apply Hm in H. destruct H as (d & Hd & U).
  rewrite (new_events_app _ _ _ Hd). exact U.
Qed.

(** From the object [__init__] built, [reset] and [step] keep the eight
    fields of the configuration. *)
Lemma reached_from_config env s :
  reached_from W env s -> same_config env (self s).
Proof.
  induction 1 as [h | s seed options r s' _ IH Hr | s action r s' _ IH Hs].
  - apply same_config_refl.
  - apply reset_keeps in Hr. destruct Hr as [[C _] _].
    eapply same_config_trans; eassumption.
  - apply step_keeps in Hs. destruct Hs as [[C _] _].
    eapply same_config_trans; eassumption.
Qed.

End Uncaught.

(** ** The claims about the observation and about failures *)

Section ObservationClaims.

Context {L : Libraries}.
Variable W : Outside.

(** An observation that is returned is a column of [samples] rows. *)
Lemma _get_obs_shape s obs s' :
  _get_obs W s = (Ok obs, s') ->
  shape obs = (samples (self s), 1) /\
  Z.of_nat (List.length (data obs)) = samples (self s).
Proof.
  intro H. apply _get_obs_ok_inv in H.
  destruct H as (resp & vals & padded & _ & _ & Hp & ->).
  apply prepend_zeroes_length in Hp. simpl. rewrite Hp. split; reflexivity.
Qed.

Lemma resample_rule_seconds r :
  r <> 0 -> resample_rule r = Ok (str_of_Z (Z.quot 60 r) ++ "s")%string.
Proof.
  intro Hr. unfold resample_rule, resample_seconds, result_bind.
  destruct (r =? 0) eqn:E; [apply Z.eqb_eq in E; contradiction | reflexivity].
Qed.

Lemma throughput_values_inv r resp series :
  throughput_values r resp = Ok series -> resampled_series r resp series.
Proof.
  unfold throughput_values, resample_rule, resample_seconds, result_bind.
  destruct (throughput_rows resp) as [rows |] eqn:E0; [| discriminate].
  destruct (pd_DataFrame rows _) as [df0 |] eqn:E1; [| discriminate].
  destruct (df_set_index _ df0) as [df1 |] eqn:E2; [| discriminate].
  destruct (df_index_to_datetime df1) as [df2 |] eqn:E3; [| discriminate].
  destruct (df_astype_float _ df2) as [df3 |] eqn:E4; [| discriminate].
  destruct (df_iloc 0 0 df3) as [first |] eqn:E5; [| discriminate].
  destruct (df_sub_scalar _ first df3) as [df4 |] eqn:E6; [| discriminate].
  destruct (df_interpolate df4) as [df5 |] eqn:E7; [| discriminate].
  destruct (r =? 0) eqn:Er; [discriminate |]. apply Z.eqb_neq in Er.
  destruct (df_resample_mean _ df5) as [df6 |] eqn:E8; [| discriminate].
  destruct (df_interpolate df6) as [df7 |] eqn:E9; [| discriminate].
  intro E10. exists rows, df0, df1, df2, df3, first, df4, df5, df6, df7.
  repeat split; assumption.
Qed.

Lemma prepend_zeroes_inv n vals padded :
  prepend_zeroes n vals = Ok padded ->
  Z.of_nat (List.length vals) <= n /\
  padded = repeat 0%float (Z.to_nat (n - Z.of_nat (List.length vals))) ++ vals.
Proof.
  unfold prepend_zeroes, np_zeros, np_insert_front, result_bind.
  destruct (Z.of_nat (List.length vals) =? n) eqn:E; simpl.
  - apply Z.eqb_eq in E. intro H. injection H as <-.
    rewrite E, Z.sub_diag. split; [lia | reflexivity].
  - destruct (n - Z.of_nat (List.length vals) <? 0) eqn:E'; intro H;
      [discriminate H |].
    apply Z.ltb_ge in E'. injection H as <-. split; [lia | reflexivity].
Qed.

Lemma resample_seconds_exact r :
  (r | 60) -> r <> 0 -> resamples_every_sixty_over_rate r.
Proof.
  intros [q Hq] Hr. exists (Z.quot 60 r). split.
  - unfold resample_seconds.
    destruct (r =? 0) eqn:E; [apply Z.eqb_eq in E; contradiction | reflexivity].
  - rewrite Hq, Z.quot_mul by exact Hr. reflexivity.
Qed.

(** C3 (amended).  Let the environment be built with window [w] and sample
    rate [r], and take any state it reaches afterwards by [reset] and
    [step].  Every observation [_get_obs] returns there, and so every
    observation [reset] and [step] return, has shape [(w * r, 1)] and is the
    resampled throughput series, of at most [w * r] entries, with zeroes
    prepended up to [w * r] entries.  The series is resampled with the rule
    of [int(60 / r)] seconds, the quotient truncated towards zero, which is
    60/r seconds exactly when [r] divides 60.  Conversely, when the resampled
    series has at most [w * r] entries and the loop over the pods goes
    through, [_get_obs] returns that series with the zeroes prepended. *)
Theorem observation_is_a_column render_mode w r p env s :
  __init__ render_mode w r p = Ok env ->
  reached_from W env s ->
  (forall obs s',
     _get_obs W s = (Ok obs, s') ->
     shape obs = (w * r, 1) /\
     Z.of_nat (List.length (data obs)) = w * r /\
     exists resp series,
       first_response W (history s) = Ok resp /\
       resampled_series r resp series /\
       Z.of_nat (List.length series) <= w * r /\
       data obs =
         repeat 0%float (Z.to_nat (w * r - Z.of_nat (List.length series)))
           ++ series) /\
  (forall seed options obs info s',
     reset W seed options s = (Ok (obs, info), s') -> shape obs = (w * r, 1)) /\
  (forall action res s',
     step W action s = (Ok res, s') -> shape (observation res) = (w * r, 1)) /\
  (forall k, resample_seconds r = Ok k -> k = Z.quot 60 r) /\
  ((r | 60) -> r <> 0 -> resamples_every_sixty_over_rate r) /\
  (forall q resp series pods s',
     prom_query_rl_upf_experiment1 W (history s) = Ok q ->
     run_queries W (history s ++ [PromQueryRlUpfExperiment1]) (advisor q)
       = Ok resp ->
     throughput_values r resp = Ok series ->
     Z.of_nat (List.length series) <= w * r ->
     collect_pods W (advisor q) resp (queried s q) = (Ok pods, s') ->
     _get_obs W s =
     (Ok (mk_ndarray (w * r, 1)
            (repeat 0%float (Z.to_nat (w * r - Z.of_nat (List.length series)))
               ++ series)),
      s')).
Proof.
  intros Hinit Hreach. apply __init___samples in Hinit.
  destruct Hinit as (_ & Hrate & Hsamples & _).
  apply reached_from_config in Hreach.
  destruct Hreach as (_ & Cr & Cs & _).
  rewrite <- Cr in Hrate. rewrite <- Cs in Hsamples. clear Cr Cs.
  split; [| split; [| split; [| split; [| split]]]].
  - intros obs s' H. pose proof H as Hs. apply _get_obs_shape in Hs.
    destruct Hs as [Hshape Hlen].
    rewrite Hsamples in Hshape, Hlen. split; [exact Hshape |].
    split; [exact Hlen |].
    apply _get_obs_ok_inv in H.
    destruct H as (resp & vals & padded & Hf & Hv & Hp & ->).
    rewrite Hrate in Hv. rewrite Hsamples in Hp.
    apply prepend_zeroes_inv in Hp. destruct Hp as [Hle ->].
    exists resp, vals. split; [exact Hf |].
    split; [apply throughput_values_inv, Hv |]. split; [exact Hle | reflexivity].
  - intros seed options obs info s' H. unfold reset in H.
    apply bind_ok_inv in H. destruct H as ([] & s1 & H1 & H).
    apply bind_ok_inv in H. destruct H as (obs' & s2 & H2 & H).
    apply ret_inv in H. destruct H as [Hr _]. injection Hr as -> _.
    apply Env_reset_keeps in H1. destruct H1 as [[(_ & _ & C & _) _] _].
    apply _get_obs_shape in H2. rewrite C, Hsamples in H2. tauto.
  - intros action res s' H. apply step_ok_inv in H.
    destruct H as (s1 & obs & s4 & Ha & Ho & -> & _).
    apply apply_action_emits in Ha. destruct Ha as [E1 _].
    apply _get_obs_shape in Ho. simpl in *. rewrite E1, Hsamples in Ho. tauto.
  - intros k Hk. unfold resample_seconds in Hk.
    destruct (r =? 0); [discriminate Hk | now injection Hk as <-].
  - apply resample_seconds_exact.
  - intros q resp series pods s' Hq Hr Hv Hle Hpods.
    rewrite <- Hrate in Hv. rewrite <- Hsamples in Hle.
    rewrite (_get_obs_run W s Hq Hr Hv (prepend_zeroes_fits _ Hle)).
    rewrite (bind_ok _ _ _ Hpods). unfold ret, reshape_column.
    rewrite <- Hsamples. do 4 f_equal.
    rewrite length_app, repeat_length. lia.
Qed.

(** C4.  Nothing is caught, in [_get_obs], in [reset] or in [step]: whenever
    a call to the outside raises, be it a query of the metrics client (the
    throughput query or a node-label query of the loop over the pods), the
    token, the construction of the action handler or its push, or a cost
    lookup, that call is the last call of the run and its error is what the
    method raises.  In particular an error of the first query surfaces from
    [_get_obs], an error of [_get_obs] from [reset] and from [step], and an
    error of the action handler from [step].  When the observation fails
    inside [step], [step_counter] is as it was, and for actions 1 and 2 the
    update has been pushed all the same. *)
Theorem failures_reach_the_caller :
  (forall s r s',
     _get_obs W s = (r, s') ->
     uncaught W (history s) (new_events s s') (error_of r)) /\
  (forall seed options s r s',
     reset W seed options s = (r, s') ->
     uncaught W (history s) (new_events s s') (error_of r)) /\
  (forall action s r s',
     step W action s = (r, s') ->
     uncaught W (history s) (new_events s s') (error_of r)) /\
  (forall s q e,
     prom_query_rl_upf_experiment1 W (history s) = Ok q ->
     run_queries W (history s ++ [PromQueryRlUpfExperiment1]) (advisor q)
       = Raise e ->
     _get_obs W s = (Raise e, queried s q)) /\
  (forall seed options s s1 e s2,
     Env_reset seed s = (Ok tt, s1) ->
     _get_obs W s1 = (Raise e, s2) ->
     reset W seed options s = (Raise e, s2)) /\
  (forall size s token e,
     get_token W (history s) = Ok token ->
     let hndl := mk_ActionHandler token gh_url dir_name (upf_request size) in
     action_handler_init W (history s ++ [GetToken]) hndl = Ok tt ->
     fetch_update_push_upf_sizing W
       (history s ++ [GetToken; NewActionHandler hndl]) hndl = Raise e ->
     exists s1, transition_to W size s = (Raise e, s1)) /\
  (forall action s e s1,
     apply_action W action s = (Raise e, s1) ->
     step W action s = (Raise e, s1) /\
     step_counter (self s1) = step_counter (self s)) /\
  (forall action s s1 li_cost si_cost e s4,
     apply_action W action s = (Ok tt, s1) ->
     ec2_cost_calculator W (history s1 ++ [Sleep 10]) "m4.large"
       = Ok li_cost ->
     ec2_cost_calculator W
       (history s1 ++ [Sleep 10; Ec2CostCalculator "m4.large"]) "t3.medium"
       = Ok si_cost ->
     _get_obs W (before_obs s1) = (Raise e, s4) ->
     step W action s = (Raise e, s4) /\
     step_counter (self s4) = step_counter (self s) /\
     (action = 1 -> dispatched (new_events s s4) = [upf_request "Large"]) /\
     (action = 2 -> dispatched (new_events s s4) = [upf_request "Small"])).
Proof.
  split; [| split; [| split]].
  { intros s r s'. apply catches_nothing_run, _get_obs_catches_nothing. }
  { intros seed options s r s'.
    apply catches_nothing_run, reset_catches_nothing. }
  { intros action s r s'. apply catches_nothing_run, step_catches_nothing. }
  split; [| split; [| split; [| split]]].
  - intros s q e Hq Hr. unfold _get_obs.
    unfold bind at 1. unfold call at 1. rewrite Hq.
    unfold bind at 1. unfold call at 1. simpl. rewrite Hr.
    unfold queried. rewrite <- app_assoc. reflexivity.
  - intros seed options s s1 e s2 H1 H2. unfold reset.
    rewrite (bind_ok _ _ _ H1). apply bind_raise, H2.
  - intros size s token e Ht hndl Hi Hp. unfold transition_to.
    unfold bind at 1. unfold call at 1. rewrite Ht.
    unfold bind at 1. unfold call at 1. simpl. fold hndl.
    unfold upf_request in hndl. fold hndl. rewrite Hi.
    unfold call. simpl. rewrite <- app_assoc. simpl. rewrite Hp.
    eexists. reflexivity.
  - intros action s e s1 Ha. split.
    + rewrite step_unfold. apply bind_raise, Ha.
    + apply apply_action_emits in Ha. destruct Ha as [E _]. now rewrite E.
  - intros action s s1 li si e s4 Ha Hli Hsi Ho.
    assert (Hstep : step W action s = (Raise e, s4)).
    { rewrite step_unfold, (bind_ok _ _ _ Ha). unfold observe_and_count.
      unfold bind at 1. unfold call at 1.
      unfold bind at 1. unfold call at 1. simpl. rewrite Hli.
      unfold bind at 1. unfold call at 1. simpl. rewrite <- app_assoc. simpl.
      rewrite Hsi. apply bind_raise.
      unfold before_obs in Ho. rewrite <- Ho. rewrite <- app_assoc. reflexivity. }
    split; [exact Hstep |].
    pose proof Ha as Hact.
    apply apply_action_emits in Ha. destruct Ha as [E1 (d1 & H1 & _)].
    apply _get_obs_emits in Ho. destruct Ho as [E4 (d4 & H4 & F4)].
    simpl in E4, H4. split; [now rewrite E4, E1 |].
    assert (Hd : forall size,
               apply_action W action = transition_to W size ->
               dispatched (new_events s s4) = [upf_request size]).
    { intros size Hsz. rewrite Hsz in Hact. apply transition_to_ok in Hact.
      destruct Hact as (d & Hd & Hdisp).
      rewrite (@new_events_app s s4
                 (d ++ [Sleep 10; Ec2CostCalculator "m4.large";
                        Ec2CostCalculator "t3.medium"] ++ d4)).
      - rewrite !dispatched_app, Hdisp. simpl.
        rewrite (@dispatched_none is_query d4); [reflexivity | reflexivity | exact F4].
      - rewrite H4, Hd, <- !app_assoc. reflexivity. }
    split; intros ->; apply Hd; reflexivity.
Qed.

End ObservationClaims.

Lemma throughput_values_rows {L : Libraries} sample_rate resp1 resp2 :
  throughput_rows resp1 = throughput_rows resp2 ->
  throughput_values sample_rate resp1 = throughput_values sample_rate resp2.
Proof. intro H. unfold throughput_values. rewrite H. reflexivity. Qed.

(** C7.  Take two runs of [_get_obs], against any two backends, in
    environments of the same [sample_rate] and [samples].  If the first
    query results carry the same throughput series
    [prom_response[0][0]['values']], then the observations returned are
    equal, however the pod data and the instance types differ. *)
Theorem observation_ignores_pod_data {L : Libraries} (W1 W2 : Outside)
    s1 s2 resp1 resp2 obs1 obs2 s1' s2' :
  sample_rate (self s1) = sample_rate (self s2) ->
  samples (self s1) = samples (self s2) ->
  first_response W1 (history s1) = Ok resp1 ->
  first_response W2 (history s2) = Ok resp2 ->
  throughput_rows resp1 = throughput_rows resp2 ->
  _get_obs W1 s1 = (Ok obs1, s1') ->
  _get_obs W2 s2 = (Ok obs2, s2') ->
  obs1 = obs2.
Proof.
  intros Hrate Hsamples Hr1 Hr2 Hrows H1 H2.
  apply _get_obs_ok_inv in H1.
  destruct H1 as (r1 & v1 & p1 & Hf1 & Hv1 & Hp1 & ->).
  apply _get_obs_ok_inv in H2.
  destruct H2 as (r2 & v2 & p2 & Hf2 & Hv2 & Hp2 & ->).
  rewrite Hr1 in Hf1. injection Hf1 as <-.
  rewrite Hr2 in Hf2. injection Hf2 as <-.
  rewrite (throughput_values_rows _ _ _ Hrows), Hrate, Hv2 in Hv1.
  injection Hv1 as <-.
  rewrite Hsamples, Hp2 in Hp1. injection Hp1 as <-. reflexivity.
Qed.

(** ** Further properties of [_get_obs] *)

Section ObservationCalls.

Context {L : Libraries}.
Variable W : Outside.

Lemma set_queries_by_list_url l client :
  set_queries_by_list l client = mk_PromClient (prom_url client) (QueriesByList l).
Proof. reflexivity. Qed.

(** One pass of the loop over the pods: it asks nothing and raises, or it
    asks for the labels of the node of the pod's host. *)
Lemma process_pod_inv client pod s r s' :
  process_pod W client pod s = (r, s') ->
  (s' = s /\ exists e, r = Raise e) \/
  (exists ip,
     pod_host_ip pod = Ok (PyStr ip) /\
     s' = mk_State (self s)
            (history s ++
               [RunQueries
                  (mk_PromClient (prom_url client)
                     (QueriesByList [node_labels_query ip]))]) /\
     forall x, r = Ok x -> prom_url (fst x) = prom_url client).
Proof.
  unfold process_pod, pod_host_ip. intro H.
  apply bind_inv in H. destruct H as [(metric & s1 & H1 & H) | (e & H1 & ->)];
    apply lift_inv in H1; destruct H1 as [Hm ->];
    [| left; split; [reflexivity | eauto]].
  apply bind_inv in H. destruct H as [(ip & s1 & H1 & H) | (e & H1 & ->)];
    apply lift_inv in H1; destruct H1 as [Hip ->];
    [| left; split; [reflexivity | eauto]].
  apply bind_inv in H. destruct H as [(vals & s1 & H1 & H) | (e & H1 & ->)];
    apply lift_inv in H1; destruct H1 as [Hv ->];
    [| left; split; [reflexivity | eauto]].
  apply bind_inv in H. destruct H as [(dashed & s1 & H1 & H) | (e & H1 & ->)];
    apply lift_inv in H1; destruct H1 as [Hd ->];
    [| left; split; [reflexivity | eauto]].
  destruct ip as [| | | ip | |]; try discriminate Hd.
  injection Hd as <-.
  right. exists ip. rewrite Hm. simpl. split; [exact Hip |].
  apply bind_inv in H. destruct H as [(labels & s1 & H1 & H) | (e & H1 & ->)];
    apply call_inv in H1; destruct H1 as [_ ->];
    [| split; [reflexivity | intros x Hx; discriminate Hx]].
  apply bind_inv in H. destruct H as [(first & s2 & H1 & H) | (e & H1 & ->)];
    apply lift_inv in H1; destruct H1 as [_ ->];
    [| split; [reflexivity | intros x Hx; discriminate Hx]].
  apply bind_inv in H. destruct H as [(m2 & s2 & H1 & H) | (e & H1 & ->)];
    apply lift_inv in H1; destruct H1 as [_ ->];
    [| split; [reflexivity | intros x Hx; discriminate Hx]].
  apply bind_inv in H. destruct H as [(ty & s2 & H1 & H) | (e & H1 & ->)];
    apply lift_inv in H1; destruct H1 as [_ ->];
    [| split; [reflexivity | intros x Hx; discriminate Hx]].
  apply ret_inv in H. destruct H as [-> ->].
  split; [reflexivity |]. intros x Hx. injection Hx as <-. reflexivity.
Qed.

(** The loop over the pods: one query per pod visited, in order, each to
    the URL of the client and for the node of the pod's host; when the loop
    returns, every pod was visited. *)
Lemma process_pods_inv items : forall client i pods s r s',
  process_pods W client i pods items s = (r, s') ->
  self s' = self s /\
  exists ips,
    history s' =
      history s ++
      map (fun ip =>
             RunQueries
               (mk_PromClient (prom_url client)
                  (QueriesByList [node_labels_query ip]))) ips /\
    Forall2 (fun pod ip => pod_host_ip pod = Ok (PyStr ip))
      (firstn (List.length ips) items) ips /\
    (forall x, r = Ok x -> List.length ips = List.length items).
Proof.
  induction items as [| pod rest IH]; intros client i pods s r s' H; simpl in H.
  - apply ret_inv in H. destruct H as [-> ->]. split; [reflexivity |].
    exists []. simpl. rewrite app_nil_r. repeat split; constructor.
  - apply bind_inv in H. destruct H as [(x & s1 & H1 & H) | (e & H1 & ->)].
    + apply process_pod_inv in H1.
      destruct H1 as [[_ (e & He)] | (ip & Hip & -> & Hurl)];
        [discriminate He |].
      apply IH in H. destruct H as [Hself (ips & Hh & Hf & Hlen)].
      rewrite (Hurl x eq_refl) in Hh. simpl in Hself, Hh.
      split; [exact Hself |]. exists (ip :: ips). simpl. split.
      * rewrite Hh, <- app_assoc. reflexivity.
      * split; [constructor; assumption |].
        intros y Hy. f_equal. eapply Hlen, Hy.
    + apply process_pod_inv in H1.
      destruct H1 as [[-> _] | (ip & Hip & -> & _)].
      * split; [reflexivity |]. exists []. simpl. rewrite app_nil_r.
        repeat split; [constructor | intros x Hx; discriminate Hx].
      * split; [reflexivity |]. exists [ip]. simpl.
        repeat split; [repeat constructor; exact Hip
                      | intros x Hx; discriminate Hx].
Qed.

End ObservationCalls.

Section ObservationEdges.

Context {L : Libraries}.
Variable W : Outside.

Lemma new_events_mk s e d : new_events s (mk_State e (history s ++ d)) = d.
Proof. apply new_events_app. reflexivity. Qed.

Lemma clients_asked_app d1 d2 :
  clients_asked (d1 ++ d2) = clients_asked d1 ++ clients_asked d2.
Proof. unfold clients_asked. apply flat_map_app. Qed.

Lemma clients_asked_queries (f : string -> PromClient) ips :
  clients_asked (map (fun ip => RunQueries (f ip)) ips) = map f ips.
Proof. induction ips as [| ip ips IH]; simpl; [| rewrite IH]; reflexivity. Qed.

(** Every run of [_get_obs], split at the loop over the pods. *)
Lemma _get_obs_inv s r s' :
  _get_obs W s = (r, s') ->
  (exists e,
     r = Raise e /\ s' = mk_State (self s) (history s ++ [PromQueryRlUpfExperiment1])) \/
  (exists q, prom_query_rl_upf_experiment1 W (history s) = Ok q /\
     ((exists e, r = Raise e /\ s' = queried s q) \/
      (exists resp vals padded rp,
         run_queries W (history s ++ [PromQueryRlUpfExperiment1]) (advisor q)
           = Ok resp /\
         throughput_values (sample_rate (self s)) resp = Ok vals /\
         prepend_zeroes (samples (self s)) vals = Ok padded /\
         collect_pods W (advisor q) resp (queried s q) = (rp, s') /\
         r = match rp with
             | Ok _ => Ok (reshape_column padded)
             | Raise e => Raise e
             end))).
Proof.
  unfold _get_obs. intro H.
  apply bind_inv in H. destruct H as [(q & s1 & H1 & H) | (e & H1 & ->)];
    apply call_inv in H1; destruct H1 as [Hq ->];
    [| left; exists e; split; reflexivity].
  right. exists q. split; [exact Hq |].
  assert (Hs : mk_State (self s)
                 ((history s ++ [PromQueryRlUpfExperiment1]) ++
                    [RunQueries (advisor q)]) = queried s q)
    by (unfold queried; rewrite <- app_assoc; reflexivity).
  apply bind_inv in H. destruct H as [(resp & s1 & H1 & H) | (e & H1 & ->)];
    apply call_inv in H1; simpl in H1; destruct H1 as [Hr ->]; rewrite Hs in *;
    [| left; exists e; split; reflexivity].
  apply bind_inv in H. destruct H as [(env & s1 & H1 & H) | (e & H1 & _)];
    apply get_self_inv in H1; destruct H1 as [He ->]; [| discriminate He].
  injection He as ->.
  apply bind_inv in H. destruct H as [(vals & s1 & H1 & H) | (e & H1 & ->)];
    apply lift_inv in H1; simpl in H1; destruct H1 as [Hv ->];
    [| left; exists e; split; reflexivity].
  apply bind_inv in H. destruct H as [(padded & s1 & H1 & H) | (e & H1 & ->)];
    apply lift_inv in H1; simpl in H1; destruct H1 as [Hp ->];
    [| left; exists e; split; reflexivity].
  right.
  apply bind_inv in H. destruct H as [(pods & s1 & H1 & H) | (e & H1 & ->)].
  - apply ret_inv in H. destruct H as [-> ->].
    exists resp, vals, padded, (Ok pods). repeat split; assumption.
  - exists resp, vals, padded, (Raise e). repeat split; assumption.
Qed.

(** The loop of lines 72 to 85 as run by [_get_obs]. *)
Lemma collect_pods_inv client resp s r s' :
  collect_pods W client resp s = (r, s') ->
  self s' = self s /\
  exists ips,
    history s' =
      history s ++
      map (fun ip =>
             RunQueries
               (mk_PromClient (prom_url client)
                  (QueriesByList [node_labels_query ip]))) ips /\
    forall x pod_list items,
      r = Ok x ->
      getitem_int resp 1 = Ok pod_list ->
      py_iter pod_list = Ok items ->
      Forall2 (fun pod ip => pod_host_ip pod = Ok (PyStr ip)) items ips.
Proof.
  unfold collect_pods. intro H.
  assert (Hnone : forall e, r = Raise e -> s' = s ->
            self s' = self s /\
            exists ips,
              history s' =
                history s ++
                map (fun ip =>
                       RunQueries
                         (mk_PromClient (prom_url client)
                            (QueriesByList [node_labels_query ip]))) ips /\
              forall x pod_list items,
                r = Ok x ->
                getitem_int resp 1 = Ok pod_list ->
                py_iter pod_list = Ok items ->
                Forall2 (fun pod ip => pod_host_ip pod = Ok (PyStr ip)) items ips).
  { intros e -> ->. split; [reflexivity |]. exists []. simpl.
    rewrite app_nil_r. split; [reflexivity |]. intros x ? ? Hx. discriminate Hx. }
  apply bind_inv in H. destruct H as [(pl & s1 & H1 & H) | (e & H1 & ->)];
    apply lift_inv in H1; destruct H1 as [Hpl ->]; [| eapply Hnone; reflexivity].
  apply bind_inv in H. destruct H as [(its & s1 & H1 & H) | (e & H1 & ->)];
    apply lift_inv in H1; destruct H1 as [Hits ->]; [| eapply Hnone; reflexivity].
  apply process_pods_inv in H. destruct H as [Hself (ips & Hh & Hf & Hlen)].
  split; [exact Hself |]. exists ips. split; [exact Hh |].
  intros x pod_list items Hx Hpl' Hits'.
  rewrite Hpl in Hpl'. injection Hpl' as <-.
  rewrite Hits in Hits'. injection Hits' as <-.
  rewrite (Hlen x Hx), firstn_all in Hf. exact Hf.
Qed.

(** X1.  [_get_obs] only reads: whether it returns or raises, the object is
    as it was, and every call it made is a metrics query, so no update was
    pushed, nothing slept and no cost was looked up. *)
Theorem get_obs_only_queries s :
  self (snd (_get_obs W s)) = self s /\
  Forall (fun ev => is_query ev = true) (new_events s (snd (_get_obs W s))) /\
  dispatched (new_events s (snd (_get_obs W s))) = [] /\
  slept (new_events s (snd (_get_obs W s))) = [].
Proof.
  destruct (_get_obs W s) as [r s'] eqn:H. simpl.
  apply _get_obs_emits in H. destruct H as [E (d & Hd & F)].
  rewrite (new_events_app _ _ _ Hd). repeat split; try assumption.
  - eapply dispatched_none; [| exact F]. reflexivity.
  - eapply slept_none; [| exact F]. reflexivity.
Qed.

(** X2.  Every metrics query of [_get_obs] goes to the one URL written in
    the source, [http://10.0.104.52:9090], whatever the backend answers. *)
Theorem get_obs_asks_one_url s :
  Forall (fun c => prom_url c = "http://10.0.104.52:9090")
    (clients_asked (new_events s (snd (_get_obs W s)))).
Proof.
  destruct (_get_obs W s) as [r s'] eqn:H. simpl.
  apply _get_obs_inv in H.
  destruct H as [(e & _ & ->) | (q & _ & [(e & _ & ->) | H])].
  - rewrite new_events_mk. constructor.
  - unfold queried. rewrite new_events_mk. repeat constructor.
  - destruct H as (resp & vals & padded & rp & _ & _ & _ & Hc & _).
    apply collect_pods_inv in Hc. destruct Hc as [_ (ips & Hh & _)].
    simpl in Hh. rewrite <- app_assoc in Hh.
    rewrite (new_events_app _ _ _ Hh).
    change (PromQueryRlUpfExperiment1 :: ?l) with ([PromQueryRlUpfExperiment1] ++ l).
    simpl. constructor; [reflexivity |].
    rewrite clients_asked_queries. apply Forall_map, Forall_forall.
    reflexivity.
Qed.

(** X3.  When [_get_obs] returns, it has asked the throughput query once
    and then, for each pod of [prom_response[1]] in order, the labels of the
    node [ip-a-b-c-d.ec2.internal] of the pod's host [a.b.c.d], and nothing
    else. *)
Theorem get_obs_asks_once_per_pod s q resp pod_list items obs s' :
  prom_query_rl_upf_experiment1 W (history s) = Ok q ->
  run_queries W (history s ++ [PromQueryRlUpfExperiment1]) (advisor q)
    = Ok resp ->
  getitem_int resp 1 = Ok pod_list ->
  py_iter pod_list = Ok items ->
  _get_obs W s = (Ok obs, s') ->
  exists ips,
    Forall2 (fun pod ip => pod_host_ip pod = Ok (PyStr ip)) items ips /\
    new_events s s' =
      PromQueryRlUpfExperiment1 :: RunQueries (advisor q)
        :: map (fun ip => RunQueries (node_client ip)) ips.
Proof.
  intros Hq Hr Hpl Hits H. apply _get_obs_inv in H.
  destruct H as [(e & He & _) | (q' & Hq' & [(e & He & _) | H])];
    try discriminate He.
  rewrite Hq in Hq'. injection Hq' as <-.
  destruct H as (resp' & vals & padded & rp & Hr' & _ & _ & Hc & Hrp).
  rewrite Hr in Hr'. injection Hr' as <-.
  destruct rp as [pods | e]; [| discriminate Hrp].
  apply collect_pods_inv in Hc. destruct Hc as [_ (ips & Hh & Hf)].
  exists ips. split; [eapply Hf; eauto |].
  simpl in Hh. rewrite <- app_assoc in Hh.
  rewrite (new_events_app _ _ _ Hh). reflexivity.
Qed.

Lemma prepend_zeroes_overflow n vals :
  n < Z.of_nat (List.length vals) -> prepend_zeroes n vals = Raise ValueError.
Proof.
  intro Hlt. unfold prepend_zeroes, np_zeros, result_bind.
  destruct (Z.of_nat (List.length vals) =? n) eqn:E;
    [apply Z.eqb_eq in E; lia |]. simpl.
  destruct (n - Z.of_nat (List.length vals) <? 0) eqn:E'; [reflexivity |].
  apply Z.ltb_ge in E'. lia.
Qed.

(** X4.  A resampled series with more entries than [samples] is not cut:
    [_get_obs] raises [ValueError] (from [np.zeros] of a negative size),
    before the loop over the pods asks anything. *)
Theorem get_obs_rejects_long_series s q resp series :
  prom_query_rl_upf_experiment1 W (history s) = Ok q ->
  run_queries W (history s ++ [PromQueryRlUpfExperiment1]) (advisor q)
    = Ok resp ->
  throughput_values (sample_rate (self s)) resp = Ok series ->
  samples (self s) < Z.of_nat (List.length series) ->
  _get_obs W s = (Raise ValueError, queried s q).
Proof.
  intros Hq Hr Hv Hlt. unfold _get_obs.
  unfold bind at 1. unfold call at 1. rewrite Hq.
  unfold bind at 1. unfold call at 1. simpl. rewrite Hr.
  unfold bind at 1. unfold get_self at 1. simpl.
  unfold bind at 1. unfold lift at 1. rewrite Hv.
  unfold bind at 1. unfold lift at 1. rewrite (prepend_zeroes_overflow _ Hlt).
  unfold queried. rewrite <- app_assoc. reflexivity.
Qed.

(** X5.  When the throughput query matches nothing (the answer is empty, or
    its first result is), [_get_obs] raises [IndexError], whatever the
    sample rate and the pods. *)
Theorem get_obs_empty_result s q resp :
  prom_query_rl_upf_experiment1 W (history s) = Ok q ->
  run_queries W (history s ++ [PromQueryRlUpfExperiment1]) (advisor q)
    = Ok resp ->
  resp = PyList [] \/ (exists rest, resp = PyList (PyList [] :: rest)) ->
  _get_obs W s = (Raise IndexError, queried s q).
Proof.
  intros Hq Hr Hempty.
  assert (Hv : throughput_values (sample_rate (self s)) resp = Raise IndexError)
    by (destruct Hempty as [-> | (rest & ->)]; reflexivity).
  unfold _get_obs.
  unfold bind at 1. unfold call at 1. rewrite Hq.
  unfold bind at 1. unfold call at 1. simpl. rewrite Hr.
  unfold bind at 1. unfold get_self at 1. simpl.
  unfold bind at 1. unfold lift at 1. rewrite Hv.
  unfold queried. rewrite <- app_assoc. reflexivity.
Qed.

(** X6.  The pod data is never used in the observation, yet it can make
    [_get_obs] fail: when the first pod's [metric] has no [host_ip],
    [_get_obs] raises [KeyError('host_ip')] although the throughput values
    were computed, and no node was asked for. *)
Theorem get_obs_pod_without_host_ip s q resp vals padded pod rest fields metric :
  prom_query_rl_upf_experiment1 W (history s) = Ok q ->
  run_queries W (history s ++ [PromQueryRlUpfExperiment1]) (advisor q)
    = Ok resp ->
  throughput_values (sample_rate (self s)) resp = Ok vals ->
  prepend_zeroes (samples (self s)) vals = Ok padded ->
  getitem_int resp 1 = Ok (PyList (pod :: rest)) ->
  pod = PyDict fields ->
  assoc "metric" fields = Some (PyDict metric) ->
  assoc "host_ip" metric = None ->
  _get_obs W s = (Raise (KeyError "host_ip"), queried s q).
Proof.
  intros Hq Hr Hv Hp Hpl -> Hm Hip.
  rewrite (_get_obs_run W s Hq Hr Hv Hp).
  unfold collect_pods.
  unfold bind at 1. unfold bind at 1. unfold lift at 1. rewrite Hpl.
  unfold bind at 1. unfold lift at 1. simpl py_iter. cbv iota beta.
  simpl process_pods. unfold process_pod.
  unfold bind at 1. unfold bind at 1. unfold bind at 1.
  unfold lift at 1. simpl getitem_str. rewrite Hm.
  unfold bind at 1. unfold lift at 1. simpl getitem_str. rewrite Hip.
  reflexivity.
Qed.

Lemma throughput_values_zero_rate resp :
  is_ok (throughput_values 0 resp) = false.
Proof.
  unfold throughput_values, result_bind.
  repeat match goal with
         | |- context [match ?x with Ok _ => _ | Raise _ => _ end] =>
             destruct x; try reflexivity
         end.
Qed.

(** X7.  [__init__] accepts [sample_rate = 0], but the environment it
    builds never yields an observation: in every state it reaches afterwards
    by [reset] and [step], whatever the seed and the counter, [_get_obs],
    [reset] and [step] raise (at the latest on [60 / self.sample_rate]). *)
Theorem zero_sample_rate_never_observes render_mode w p :
  exists env,
    __init__ render_mode w 0 p = Ok env /\
    forall s,
      reached_from W env s ->
      is_ok (fst (_get_obs W s)) = false /\
      (forall seed options, is_ok (fst (reset W seed options s)) = false) /\
      (forall action, is_ok (fst (step W action s)) = false).
Proof.
  assert (Hobs : forall s, sample_rate (self s) = 0 ->
                 is_ok (fst (_get_obs W s)) = false).
  { intros s Hz. destruct (_get_obs W s) as [[obs | e] s'] eqn:H; [| reflexivity].
    apply _get_obs_ok_inv in H. destruct H as (resp & vals & _ & _ & Hv & _).
    rewrite Hz in Hv. pose proof (throughput_values_zero_rate resp) as Hn.
    rewrite Hv in Hn. discriminate Hn. }
  destruct (__init__ render_mode w 0 p) as [env | e] eqn:Hinit.
  2: { unfold __init__, np_tile_scalar, result_bind in Hinit.
       rewrite Z.mul_0_r in Hinit. simpl in Hinit. discriminate Hinit. }
  exists env. split; [reflexivity |]. intros s Hs.
  apply __init___samples in Hinit. destruct Hinit as (_ & Hrate & _).
  apply reached_from_config in Hs. destruct Hs as (_ & Cr & _).
  rewrite <- Cr in Hrate. clear Cr.
  split; [apply Hobs, Hrate |]. split.
  - intros seed options.
    destruct (reset W seed options s) as [[[obs info] | e] s'] eqn:H;
      [| reflexivity].
    unfold reset in H.
    apply bind_ok_inv in H. destruct H as ([] & s1 & H1 & H).
    apply bind_ok_inv in H. destruct H as (obs' & s2 & H2 & _).
    apply Env_reset_keeps in H1. destruct H1 as [[(_ & C & _) _] _].
    assert (Hn := Hobs s1 (eq_trans C Hrate)). rewrite H2 in Hn. discriminate Hn.
  - intro action.
    destruct (step W action s) as [[res | e] s'] eqn:H; [| reflexivity].
    apply step_ok_inv in H. destruct H as (s1 & obs & s4 & Ha & Ho & _).
    apply apply_action_emits in Ha. destruct Ha as [E1 _].
    assert (Hn := Hobs (before_obs s1) (eq_trans (f_equal sample_rate E1) Hrate)).
    rewrite Ho in Hn. discriminate Hn.
Qed.

End ObservationEdges.

(** ** Further properties of [step], [reset] and [__init__] *)

Section StepEdges.

Context {L : Libraries}.
Variable W : Outside.

(** Every run of [transition_to]: it stops at the first call that raises. *)
Lemma transition_to_inv size s r s' :
  transition_to W size s = (r, s') ->
  self s' = self s /\
  ((exists e, r = Raise e /\ get_token W (history s) = Raise e /\
      history s' = history s ++ [GetToken]) \/
   (exists token,
      get_token W (history s) = Ok token /\
      let hndl := mk_ActionHandler token gh_url dir_name (upf_request size) in
      ((exists e, r = Raise e /\
          history s' = history s ++ [GetToken; NewActionHandler hndl]) \/
       (history s' = history s ++ handler_events token size /\
        r = fetch_update_push_upf_sizing W
              (history s ++ [GetToken; NewActionHandler hndl]) hndl)))).
Proof.
  unfold transition_to. intro H.
  apply bind_inv in H. destruct H as [(token & s1 & H1 & H) | (e & H1 & ->)];
    apply call_inv in H1; destruct H1 as [Ht ->]; simpl;
    [| split; [reflexivity | left; exists e; repeat split; assumption]].
  apply bind_inv in H. destruct H as [([] & s1 & H1 & H) | (e & H1 & ->)];
    apply call_inv in H1; simpl in H1; destruct H1 as [Hi ->]; simpl.
  - apply call_inv in H. simpl in H. destruct H as [Hp ->]. simpl.
    split; [reflexivity |]. right. exists token. split; [exact Ht |].
    right. unfold handler_events, upf_request. rewrite <- !app_assoc in *.
    simpl in *. split; [reflexivity | symmetry; exact Hp].
  - split; [reflexivity |]. right. exists token. split; [exact Ht |].
    left. exists e. rewrite <- app_assoc. split; reflexivity.
Qed.

Lemma apply_action_other action :
  action <> 0 -> action <> 1 -> action <> 2 -> apply_action W action = ret tt.
Proof.
  intros H0 H1 H2. unfold apply_action.
  destruct (action =? 0) eqn:E0; [apply Z.eqb_eq in E0; contradiction |].
  destruct (action =? 1) eqn:E1; [apply Z.eqb_eq in E1; contradiction |].
  destruct (action =? 2) eqn:E2; [apply Z.eqb_eq in E2; contradiction |].
  reflexivity.
Qed.

(** A run of lines 120 to 139 that raises leaves the object as it was. *)
Lemma observe_and_count_raise s e s' :
  observe_and_count W s = (Raise e, s') -> self s' = self s.
Proof.
  unfold observe_and_count. intro H.
  apply bind_inv in H. destruct H as [([] & s1 & H1 & H) | (e1 & H1 & _)];
    apply call_inv in H1; destruct H1 as [_ ->]; [| reflexivity].
  apply bind_inv in H. destruct H as [(li & s1 & H1 & H) | (e1 & H1 & _)];
    apply call_inv in H1; destruct H1 as [_ ->]; [| reflexivity].
  apply bind_inv in H. destruct H as [(si & s1 & H1 & H) | (e1 & H1 & _)];
    apply call_inv in H1; destruct H1 as [_ ->]; [| reflexivity].
  apply bind_inv in H. destruct H as [(obs & s1 & H1 & H) | (e1 & H1 & _)];
    apply _get_obs_emits in H1; destruct H1 as [E _]; [| exact E].
  cbv [bind _get_info ret get_self put_self] in H. simpl in H.
  discriminate H.
Qed.

Lemma step_raise_keeps action s e s' :
  step W action s = (Raise e, s') -> self s' = self s.
Proof.
  intro H. apply step_inv in H.
  destruct H as (ra & s1 & _ & [E1 _] & [(e' & _ & _ & ->) | [_ H]]).
  - exact E1.
  - apply observe_and_count_raise in H. congruence.
Qed.

(** X8.  [step] does not check the action against the action space: with
    an action other than 0, 1 and 2 it makes no call to the action handler
    and logs nothing, and goes on to sleep, observe and count as for any
    other action. *)
Theorem step_accepts_any_action action s r s' :
  action <> 0 -> action <> 1 -> action <> 2 ->
  step W action s = (r, s') ->
  filter is_handler_call (new_events s s') = [] /\
  slept (new_events s s') = [10] /\
  (forall res, r = Ok res ->
     step_counter (self s') = step_counter (self s) + 1).
Proof.
  intros H0 H1 H2 H.
  pose proof H as Hstep. apply step_events in H.
  destruct H as (ra & s1 & before & Ha & Hb & _ & Hcase).
  rewrite (apply_action_other H0 H1 H2) in Ha.
  apply ret_inv in Ha. destruct Ha as [-> ->].
  rewrite <- (app_nil_r (history s)) in Hb at 1.
  apply app_inv_head in Hb. subst before.
  destruct Hcase as [(e & He & _) | [_ (after & Hn & F)]]; [discriminate He |].
  simpl in Hn. rewrite Hn. repeat split.
  - simpl. eapply filter_none; [| exact F].
    intros ev Hev. unfold after_sleep in Hev.
    apply andb_prop in Hev. destruct Hev as [_ Hev].
    now apply negb_true_iff in Hev.
  - simpl. f_equal. eapply slept_none; [| exact F]. reflexivity.
  - intros res ->. apply step_ok_inv in Hstep.
    destruct Hstep as (s1 & obs & s4 & Ha & Ho & _ & ->).
    apply apply_action_emits in Ha. destruct Ha as [E1 _].
    apply _get_obs_emits in Ho. destruct Ho as [E4 _].
    simpl in *. now rewrite E4, E1.
Qed.

(** X9.  An error of the cost lookup is not caught either: when
    [ec2_cost_calculator] raises for the large or for the small instance,
    [step] raises the same error after the action and the sleep, asks the
    metrics backend nothing, and leaves the object as it was. *)
Theorem step_cost_lookup_failure action s s1 e :
  apply_action W action s = (Ok tt, s1) ->
  ec2_cost_calculator W (history s1 ++ [Sleep 10]) "m4.large" = Raise e \/
  (exists li_cost,
     ec2_cost_calculator W (history s1 ++ [Sleep 10]) "m4.large" = Ok li_cost /\
     ec2_cost_calculator W
       (history s1 ++ [Sleep 10; Ec2CostCalculator "m4.large"]) "t3.medium"
       = Raise e) ->
  exists s',
    step W action s = (Raise e, s') /\
    self s' = self s /\
    filter is_query (new_events s s') = [] /\
    slept (new_events s s') = [10] /\
    dispatched (new_events s s') = dispatched (new_events s s1).
Proof.
  intros Ha Hcost.
  pose proof Ha as Hact. apply apply_action_emits in Hact.
  destruct Hact as [E1 (d1 & H1 & F1)].
  assert (Hq1 : filter is_query d1 = [])
    by (eapply filter_none; [| exact F1]; intros []; simpl; congruence).
  assert (Hs1 : slept d1 = [])
    by (eapply slept_none; [| exact F1]; reflexivity).
  rewrite (new_events_app _ _ _ H1).
  rewrite step_unfold, (bind_ok _ _ _ Ha). unfold observe_and_count.
  unfold bind at 1. unfold call at 1.
  unfold bind at 1. unfold call at 1. simpl.
  destruct Hcost as [Hli | (li & Hli & Hsi)]; rewrite Hli.
  - eexists. split; [reflexivity |]. simpl. split; [exact E1 |].
    rewrite H1, <- !app_assoc, new_events_mk.
    rewrite filter_app, slept_app, dispatched_app, Hq1, Hs1. simpl.
    rewrite app_nil_r. repeat split.
  - unfold bind at 1. unfold call at 1. simpl. rewrite <- app_assoc. simpl.
    rewrite Hsi. eexists. split; [reflexivity |]. simpl. split; [exact E1 |].
    rewrite H1, <- !app_assoc, new_events_mk.
    rewrite filter_app, slept_app, dispatched_app, Hq1, Hs1. simpl.
    rewrite app_nil_r. repeat split.
Qed.

(** X10.  The calls of a [step] that returns, in order: those of the
    action (a log line for 0; for 1 and 2 the token, the handler built from
    that token, the fixed URL and directory, and its push; nothing
    otherwise), the sleep, the cost of [m4.large], the cost of [t3.medium],
    then metrics queries only. *)
Theorem step_calls_in_order action s res s' :
  step W action s = (Ok res, s') ->
  exists acts queries,
    new_events s s' = acts ++ sleep_and_costs ++ queries /\
    Forall (fun ev => is_query ev = true) queries /\
    (action = 0 -> acts = [LoggingInfo "No action taken for this cycle."]) /\
    (action = 1 ->
       exists token,
         get_token W (history s) = Ok token /\
         acts = handler_events token "Large") /\
    (action = 2 ->
       exists token,
         get_token W (history s) = Ok token /\
         acts = handler_events token "Small") /\
    (action <> 0 -> action <> 1 -> action <> 2 -> acts = []).
Proof.
  intro H. apply step_ok_inv in H.
  destruct H as (s1 & obs & s4 & Ha & Ho & _ & ->).
  pose proof Ha as Hact. apply apply_action_emits in Hact.
  destruct Hact as [_ (acts & H1 & _)].
  apply _get_obs_emits in Ho. destruct Ho as [_ (queries & H4 & F4)].
  simpl in H4.
  exists acts, queries. split.
  { apply new_events_app. simpl. rewrite H4, H1, <- !app_assoc. reflexivity. }
  split; [exact F4 |].
  assert (Hsize : forall size,
             apply_action W action = transition_to W size ->
             exists token,
               get_token W (history s) = Ok token /\
               acts = handler_events token size).
  { intros size Hsz. rewrite Hsz in Ha. apply transition_to_inv in Ha.
    destruct Ha as [_ [(e & He & _) | (token & Ht & Hc)]]; [discriminate He |].
    exists token. split; [exact Ht |].
    destruct Hc as [(e & He & _) | [Hh _]]; [discriminate He |].
    rewrite H1 in Hh. now apply app_inv_head in Hh. }
  split; [| split; [| split]].
  - intros ->. apply call_inv in Ha. destruct Ha as [_ ->]. simpl in H1.
    now apply app_inv_head in H1.
  - intros ->. apply Hsize. reflexivity.
  - intros ->. apply Hsize. reflexivity.
  - intros H0 H1' H2. rewrite (apply_action_other H0 H1' H2) in Ha.
    apply ret_inv in Ha. destruct Ha as [_ ->].
    rewrite <- (app_nil_r (history s)) in H1 at 1.
    now apply app_inv_head in H1.
Qed.

(** X11.  Whatever the action and whether it returns or raises, one call
    of [step] pushes at most one update, and only of the UPF to "Large" or
    to "Small". *)
Theorem step_pushes_at_most_once action s :
  dispatched (new_events s (snd (step W action s))) = [] \/
  dispatched (new_events s (snd (step W action s))) = [upf_request "Large"] \/
  dispatched (new_events s (snd (step W action s))) = [upf_request "Small"].
Proof.
  destruct (step W action s) as [r s'] eqn:H. simpl.
  apply step_events in H.
  destruct H as (ra & s1 & before & Ha & Hb & _ & Hcase).
  assert (Hall : dispatched (new_events s s') = dispatched before).
  { destruct Hcase as [(e & _ & _ & ->) | [_ (after & Hn & F)]].
    - now rewrite (new_events_app _ _ _ Hb).
    - rewrite Hn, dispatched_app. simpl.
      rewrite (@dispatched_none after_sleep after); [apply app_nil_r | reflexivity | exact F]. }
  rewrite Hall.
  assert (Hsize : forall size,
             apply_action W action = transition_to W size ->
             dispatched before = [] \/ dispatched before = [upf_request size]).
  { intros size Hsz. rewrite Hsz in Ha. apply transition_to_inv in Ha.
    destruct Ha as [_ [(e & _ & _ & Hh) | (token & _ & [(e & _ & Hh) | [Hh _]])]];
      rewrite Hb in Hh; apply app_inv_head in Hh; subst before;
      [left | left | right]; reflexivity. }
  unfold apply_action in Ha, Hsize.
  destruct (action =? 0).
  - apply call_inv in Ha. destruct Ha as [_ ->]. simpl in Hb.
    apply app_inv_head in Hb. subst before. left. reflexivity.
  - destruct (action =? 1); [destruct (Hsize "Large" eq_refl); auto |].
    destruct (action =? 2); [destruct (Hsize "Small" eq_refl); auto |].
    apply ret_inv in Ha. destruct Ha as [_ ->].
    rewrite <- (app_nil_r (history s)) in Hb at 1.
    apply app_inv_head in Hb. subst before. left. reflexivity.
Qed.

(** X12.  A [step] that raises, at whatever stage, leaves every field of
    the object as it was: [step_counter] moves only when [step] returns. *)
Theorem step_raise_changes_nothing action s e s' :
  step W action s = (Raise e, s') -> self s' = self s.
Proof. apply step_raise_keeps. Qed.

Lemma Env_reset_quiet P seed :
  steps_to (evolves same_but_seed P) (Env_reset seed).
Proof.
  intros s r s' H. unfold Env_reset in H. destruct seed as [sd |].
  - destruct (sd <? 0); inversion H; subst; clear H.
    + apply evolves_refl, same_but_seed_refl.
    + split; [apply seed_update_kept |].
      exists []. split; [simpl; now rewrite app_nil_r | constructor].
  - inversion H; subst. apply evolves_refl, same_but_seed_refl.
Qed.

(** X13.  [reset] only reads the backend: whether it returns or raises,
    every call it made is a metrics query (no update pushed, no sleep, no
    cost lookup), and with [seed=None] the object is as it was. *)
Theorem reset_only_queries seed options s :
  Forall (fun ev => is_query ev = true)
    (new_events s (snd (reset W seed options s))) /\
  dispatched (new_events s (snd (reset W seed options s))) = [] /\
  slept (new_events s (snd (reset W seed options s))) = [] /\
  (seed = None -> self (snd (reset W seed options s)) = self s).
Proof.
  destruct (reset W seed options s) as [r s'] eqn:H. simpl.
  assert (Hq : evolves same_but_seed is_query s s').
  { revert H. unfold reset. apply evolves_bind;
      [apply same_but_seed_trans | apply Env_reset_quiet | intro].
    apply evolves_bind; [apply same_but_seed_trans | | intro].
    - eapply evolves_of_emits; [apply same_but_seed_refl | | apply _get_obs_emits].
      auto.
    - apply evolves_bind; [apply same_but_seed_trans | | intro];
        apply evolves_ret, same_but_seed_refl. }
  destruct Hq as [_ (d & Hd & F)]. rewrite (new_events_app _ _ _ Hd).
  split; [exact F |]. split; [| split].
  - eapply dispatched_none; [| exact F]. reflexivity.
  - eapply slept_none; [| exact F]. reflexivity.
  - intros ->. unfold reset, Env_reset in H.
    rewrite (@bind_ok _ _ (ret tt) _ s tt s eq_refl) in H.
    revert H. apply (@steps_to_bind (fun a b => self b = self a)).
    + intros; congruence.
    + intros a b c Hx. apply _get_obs_emits in Hx. exact (proj1 Hx).
    + intro. apply steps_to_bind; [intros; congruence | | intro];
        apply steps_to_ret; reflexivity.
Qed.

(** X14.  [reset] does not restart the count towards truncation: the step
    after a [reset] is truncated according to the counter reached before the
    [reset], so an episode started by [reset] can be truncated after fewer
    than six steps. *)
Theorem reset_keeps_truncation_count seed options action s r1 s1 res s2 :
  reset W seed options s = (r1, s1) ->
  step W action s1 = (Ok res, s2) ->
  step_counter (self s2) = step_counter (self s) + 1 /\
  truncated res = ((step_counter (self s) + 1) mod 6 =? 0).
Proof.
  intros Hr Hs. apply reset_keeps in Hr. destruct Hr as [[_ C] _].
  apply step_ok_inv in Hs. destruct Hs as (s1' & obs & s4 & Ha & Ho & -> & ->).
  apply apply_action_emits in Ha. destruct Ha as [E1 _].
  apply _get_obs_emits in Ho. destruct Ho as [E4 _].
  simpl in *. rewrite E4, E1, C. split; reflexivity.
Qed.

End StepEdges.

Section Reachable.

Context {L : Libraries}.
Variable W : Outside.

Lemma __init___consistent render_mode w r p env :
  __init__ render_mode w r p = Ok env -> consistent env.
Proof.
  intro H. pose proof (__init___samples _ _ _ _ H) as Hf.
  destruct Hf as (Hw & Hr & Hs & _ & _ & Ha & Hc & Ho).
  unfold __init__, np_tile_scalar, result_bind in H.
  destruct (w * r <? 0) eqn:E; [discriminate H |]. apply Z.ltb_ge in E.
  unfold consistent, declared_space. rewrite Hw, Hr, Hs, Hc, Ha, Ho.
  repeat split; try assumption; lia.
Qed.

Lemma step_counter_moves action s r s' :
  step W action s = (r, s') ->
  same_config (self s) (self s') /\
  (step_counter (self s') = step_counter (self s) \/
   step_counter (self s') = step_counter (self s) + 1).
Proof.
  intro H. split; [apply step_keeps in H; exact (proj1 (proj1 H)) |].
  destruct r as [res | e].
  - right. apply step_ok_inv in H.
    destruct H as (s1 & obs & s4 & Ha & Ho & _ & ->).
    apply apply_action_emits in Ha. destruct Ha as [E1 _].
    apply _get_obs_emits in Ho. destruct Ho as [E4 _].
    simpl in *. now rewrite E4, E1.
  - left. apply step_raise_keeps in H. now rewrite H.
Qed.

Lemma consistent_kept e e' :
  same_config e e' -> step_counter e <= step_counter e' ->
  consistent e -> consistent e'.
Proof.
  intros (Cw & Cr & Cs & _ & _ & Co & Ca & _) Hc (Hs & Hn & Hk & Ha & Ho).
  unfold consistent. rewrite Cw, Cr, Cs, Co, Ca.
  repeat split; try assumption. lia.
Qed.

Lemma reachable_is_consistent s : reachable W s -> consistent (self s).
Proof.
  induction 1 as [rm w r p env h Hinit | s seed options r s' _ IH Hr
                 | s action r s' _ IH Hs].
  - simpl. eapply __init___consistent, Hinit.
  - apply reset_keeps in Hr. destruct Hr as [[C Hk] _].
    eapply consistent_kept; [exact C | lia | exact IH].
  - apply step_counter_moves in Hs. destruct Hs as [C Hk].
    eapply consistent_kept; [exact C | lia | exact IH].
Qed.

(** X15.  In every state the environment can reach, [samples] is
    [window * sample_rate] and not negative, [step_counter] is not negative,
    the action space is [Discrete(3)] and the observation space is the [Box]
    of shape [(samples, 1)] between 0 and infinity built by [__init__]. *)
Theorem reachable_environment_is_consistent s :
  reachable W s -> consistent (self s).
Proof. apply reachable_is_consistent. Qed.

(** X16.  In every state the environment can reach, an observation
    returned by [step] or by [reset] has the shape its [observation_space]
    declares, and as many entries as the bounds of that space. *)
Theorem observation_fits_declared_space s :
  reachable W s ->
  (forall action res s',
     step W action s = (Ok res, s') ->
     shape (observation res) = box_shape (observation_space (self s)) /\
     List.length (data (observation res)) =
       List.length (data (low (observation_space (self s))))) /\
  (forall seed options obs inf s',
     reset W seed options s = (Ok (obs, inf), s') ->
     shape obs = box_shape (observation_space (self s)) /\
     List.length (data obs) =
       List.length (data (low (observation_space (self s))))).
Proof.
  intro Hreach. apply reachable_is_consistent in Hreach.
  destruct Hreach as (_ & Hn & _ & _ & Ho).
  assert (Hfit : forall s0 obs s0',
             samples (self s0) = samples (self s) ->
             _get_obs W s0 = (Ok obs, s0') ->
             shape obs = box_shape (observation_space (self s)) /\
             List.length (data obs) =
               List.length (data (low (observation_space (self s))))).
  { intros s0 obs s0' Hsame H. apply _get_obs_shape in H.
    destruct H as [Hshape Hlen]. rewrite Hsame in Hshape, Hlen.
    rewrite Ho. simpl. split; [exact Hshape |].
    rewrite repeat_length. lia. }
  split.
  - intros action res s' H. apply step_ok_inv in H.
    destruct H as (s1 & obs & s4 & Ha & Hobs & -> & _).
    apply apply_action_emits in Ha. destruct Ha as [E1 _].
    simpl. eapply Hfit; [| exact Hobs]. simpl. now rewrite E1.
  - intros seed options obs inf s' H. unfold reset in H.
    apply bind_ok_inv in H. destruct H as ([] & s1 & H1 & H).
    apply bind_ok_inv in H. destruct H as (obs' & s2 & H2 & H).
    apply ret_inv in H. destruct H as [Hr _]. injection Hr as -> _.
    apply Env_reset_keeps in H1. destruct H1 as [[(_ & _ & C & _) _] _].
    eapply Hfit; [exact C | exact H2].
Qed.

End Reachable.

Section TwoBackends.

Context {L : Libraries}.
Variables W1 W2 : Outside.
Hypothesis same_token : get_token W1 = get_token W2.
Hypothesis same_init : action_handler_init W1 = action_handler_init W2.
Hypothesis same_push :
  fetch_update_push_upf_sizing W1 = fetch_update_push_upf_sizing W2.
Hypothesis same_query :
  prom_query_rl_upf_experiment1 W1 = prom_query_rl_upf_experiment1 W2.
Hypothesis same_answers : run_queries W1 = run_queries W2.

Lemma process_pod_same client pod s :
  process_pod W1 client pod s = process_pod W2 client pod s.
Proof. unfold process_pod. rewrite same_answers. reflexivity. Qed.

Lemma process_pods_same items : forall client i pods s,
  process_pods W1 client i pods items s = process_pods W2 client i pods items s.
Proof.
  induction items as [| pod rest IH]; intros client i pods s; simpl;
    [reflexivity |].
  unfold bind. rewrite process_pod_same.
  destruct (process_pod W2 client pod s) as [[x | e] s1]; [apply IH | reflexivity].
Qed.

Lemma collect_pods_same client resp s :
  collect_pods W1 client resp s = collect_pods W2 client resp s.
Proof.
  unfold collect_pods, bind, lift.
  destruct (getitem_int resp 1); [| reflexivity].
  destruct (py_iter a); [| reflexivity]. apply process_pods_same.
Qed.

Lemma _get_obs_same s : _get_obs W1 s = _get_obs W2 s.
Proof.
  unfold _get_obs, bind, call, get_self, lift. simpl.
  rewrite same_query, same_answers.
  destruct (prom_query_rl_upf_experiment1 W2 (history s)); [| reflexivity].
  destruct (run_queries W2 _ _); [| reflexivity].
  destruct (throughput_values _ _); [| reflexivity].
  destruct (prepend_zeroes _ _); [| reflexivity].
  rewrite collect_pods_same. reflexivity.
Qed.

Lemma apply_action_same action s :
  apply_action W1 action s = apply_action W2 action s.
Proof.
  unfold apply_action, transition_to.
  rewrite same_token, same_init, same_push. reflexivity.
Qed.

(** X17.  What [step] does and returns does not depend on the prices: two
    backends that differ only in what the cost lookup answers (and both
    answer) give the same result, reward included, and the same state. *)
Theorem step_ignores_cost_answers :
  (forall h name, is_ok (ec2_cost_calculator W1 h name) = true) ->
  (forall h name, is_ok (ec2_cost_calculator W2 h name) = true) ->
  forall action s, step W1 action s = step W2 action s.
Proof.
  intros Hok1 Hok2 action s. rewrite !step_unfold. unfold bind.
  rewrite apply_action_same.
  destruct (apply_action W2 action s) as [[[] | e] s1]; [| reflexivity].
  unfold observe_and_count, bind, call, _get_info, ret, get_self, put_self.
  simpl.
  pose proof (Hok1 (history s1 ++ [Sleep 10]) "m4.large") as A1.
  pose proof (Hok2 (history s1 ++ [Sleep 10]) "m4.large") as A2.
  destruct (ec2_cost_calculator W1 (history s1 ++ [Sleep 10]) "m4.large");
    [| discriminate A1].
  destruct (ec2_cost_calculator W2 (history s1 ++ [Sleep 10]) "m4.large");
    [| discriminate A2].
  pose proof (Hok1 ((history s1 ++ [Sleep 10]) ++ [Ec2CostCalculator "m4.large"])
                "t3.medium") as B1.
  pose proof (Hok2 ((history s1 ++ [Sleep 10]) ++ [Ec2CostCalculator "m4.large"])
                "t3.medium") as B2.
  destruct (ec2_cost_calculator W1 _ "t3.medium"); [| discriminate B1].
  destruct (ec2_cost_calculator W2 _ "t3.medium"); [| discriminate B2].
  rewrite _get_obs_same. reflexivity.
Qed.

End TwoBackends.

(** ** Runs against concrete backends *)

Import Reference Backends Faults.

(** Six steps from a fresh environment: only the sixth is truncated. *)
Example six_steps_truncate_once :
  exists results s',
    run_steps busy [0; 1; 2; 0; 0; 0] fresh = (Ok results, s') /\
    map truncated results = [false; false; false; false; false; true] /\
    step_counter (self s') = 6.
Proof.
  eexists. eexists. split; [vm_compute; reflexivity |].
  split; reflexivity.
Qed.

(** C1.  The reward is meant to be the revenue of the throughput over the
    window minus the cost of running the large instance and the cost of
    running the small instance (the comment on line 128 says so, and both
    hourly costs are looked up), but [step] returns the revenue alone.  Here
    the backend reports a flat throughput, so the revenue is 0; the large
    instance costs 0.1 dollars per hour and, by the placeholder
    [instance_size], runs over the whole window of 15 minutes.  The reward
    returned is 0, whether the small instance is taken to be off or on: no
    cost was subtracted. *)
Lemma step_reward_subtracts_no_cost :
  exists res s' li_cost si_cost,
    step idle 0 fresh = (Ok res, s') /\
    ec2_cost_calculator idle [Sleep 10] "m4.large" = Ok (PyFloat li_cost) /\
    ec2_cost_calculator idle [Sleep 10; Ec2CostCalculator "m4.large"]
      "t3.medium" = Ok (PyFloat si_cost) /\
    reward res = 0%float /\
    reward res <>
    reward_with_costs (rxtx_value * np_sum (observation res))%float
      (running_cost li_cost 60 60 15) (running_cost si_cost 0 60 15) /\
    reward res <>
    reward_with_costs (rxtx_value * np_sum (observation res))%float
      (running_cost li_cost 60 60 15) (running_cost si_cost 60 60 15).
Proof.
  eexists. eexists. eexists. eexists.
  split; [vm_compute; reflexivity |].
  split; [reflexivity |]. split; [reflexivity |]. split; [reflexivity |].
  split; intro H; apply (f_equal (fun x => PrimFloat.eqb x 0%float)) in H;
    vm_compute in H; discriminate H.
Qed.

(** With a throughput that grows by 2000 bytes over the window, the reward
    is 2000 times [rxtx_value]. *)
Example busy_step_reward :
  exists res s',
    step busy 1 fresh = (Ok res, s') /\
    reward res = (rxtx_value * 2000)%float.
Proof.
  eexists. eexists. split; [vm_compute; reflexivity |]. reflexivity.
Qed.

Lemma step_dispatches_by_action_witness :
  exists res s',
    step busy 1 fresh = (Ok res, s') /\
    dispatched (new_events fresh s') = [upf_request "Large"].
Proof.
  eexists. eexists. split; [vm_compute; reflexivity |].
  eapply (proj1 (proj2 (proj2 (@step_dispatches_by_action libraries busy)))).
  vm_compute. reflexivity.
Defined.

Lemma observation_is_a_column_witness :
  __init__ None 15 4 5 = Ok default_env /\
  reached_from busy default_env (snd (step busy 1 fresh)) /\
  step_counter (self (snd (step busy 1 fresh))) = 1 /\
  exists obs s',
    _get_obs busy (snd (step busy 1 fresh)) = (Ok obs, s') /\
    shape obs = (15 * 4, 1) /\
    Z.of_nat (List.length (data obs)) = 15 * 4 /\
    exists resp series,
      first_response busy (history (snd (step busy 1 fresh))) = Ok resp /\
      resampled_series 4 resp series /\
      Z.of_nat (List.length series) <= 15 * 4 /\
      data obs =
        repeat 0%float (Z.to_nat (15 * 4 - Z.of_nat (List.length series)))
          ++ series.
Proof.
  assert (R : reached_from busy default_env (snd (step busy 1 fresh))).
  { eapply reached_step; [apply (reached_start busy default_env []) |].
    apply surjective_pairing. }
  split; [reflexivity |]. split; [exact R |]. split; [reflexivity |].
  eexists. eexists.
  match goal with
  | |- ?A /\ _ => assert (Ha : A) by (vm_compute; reflexivity)
  end.
  split; [exact Ha |].
  exact (proj1
           (@observation_is_a_column libraries busy None 15 4 5 default_env
              (snd (step busy 1 fresh)) eq_refl R) _ _ Ha).
Defined.

(** C3, as stated, fails where the sample rate does not divide 60.  With
    [sample_rate = 7] the rule is ["8s"]: one sample every 8 seconds, not
    every 60/7 seconds. *)
Lemma sample_rate_seven_resamples_every_eight_seconds :
  exists env,
    __init__ None 15 7 5 = Ok env /\
    resample_rule (sample_rate env) = Ok "8s" /\
    resample_seconds (sample_rate env) = Ok 8 /\
    ~ resamples_every_sixty_over_rate (sample_rate env).
Proof.
  eexists. split; [reflexivity |]. split; [reflexivity |].
  split; [reflexivity |].
  intros (k & Hk & Hm). simpl in Hk. injection Hk as <-. discriminate Hm.
Qed.

Lemma failures_reach_the_caller_witness :
  (exists s1 e s4,
     apply_action prometheus_down 1 fresh = (Ok tt, s1) /\
     _get_obs prometheus_down (before_obs s1) = (Raise e, s4) /\
     step prometheus_down 1 fresh = (Raise e, s4) /\
     step_counter (self s4) = step_counter (self fresh) /\
     dispatched (new_events fresh s4) = [upf_request "Large"]) /\
  (exists h e s',
     raised_by node_labels_down (history fresh ++ h)
       (RunQueries (node_client "10.0.1.23")) = Some e /\
     step node_labels_down 0 fresh = (Raise e, s') /\
     new_events fresh s' = h ++ [RunQueries (node_client "10.0.1.23")] /\
     uncaught node_labels_down (history fresh) (new_events fresh s') (Some e)).
Proof.
  split.
  - eexists. eexists. eexists.
    split; [vm_compute; reflexivity |]. split; [vm_compute; reflexivity |].
    edestruct (proj2 (proj2 (proj2 (proj2 (proj2 (proj2 (proj2
                 (@failures_reach_the_caller libraries prometheus_down)))))))
                 1 fresh)
      as (Hstep & Hcount & Hlarge & _);
      [vm_compute; reflexivity | reflexivity | reflexivity
      | vm_compute; reflexivity |].
    split; [exact Hstep |]. split; [exact Hcount | exact (Hlarge eq_refl)].
  - exists ([LoggingInfo "No action taken for this cycle."; Sleep 10;
             Ec2CostCalculator "m4.large"; Ec2CostCalculator "t3.medium";
             PromQueryRlUpfExperiment1;
             RunQueries (advisor (PyList [PyStr "throughput"; PyStr "pods"]))]).
    eexists. eexists. split; [reflexivity |].
    match goal with
    | |- ?A /\ _ => assert (Ha : A) by (vm_compute; reflexivity)
    end.
    split; [exact Ha |]. split; [reflexivity |].
    exact (proj1 (proj2 (proj2
             (@failures_reach_the_caller libraries node_labels_down)))
             0 fresh _ _ Ha).
Defined.

Lemma step_sleeps_ten_seconds_witness :
  exists s1 r s',
    apply_action busy 2 fresh = (Ok tt, s1) /\
    step busy 2 fresh = (r, s') /\
    slept (new_events fresh s') = [10].
Proof.
  eexists. eexists. eexists.
  split; [vm_compute; reflexivity |]. split; [vm_compute; reflexivity |].
  eapply (@step_sleeps_ten_seconds libraries busy 2 fresh);
    vm_compute; reflexivity.
Defined.

Lemma instance_size_stays_large_witness :
  reachable busy (snd (step busy 1 fresh)) /\
  instance_size (self (snd (step busy 1 fresh))) = "Large".
Proof.
  assert (R : reachable busy (snd (step busy 1 fresh))).
  { eapply reachable_step; [| apply surjective_pairing].
    apply (reachable_init busy None 15 4 5 (env := default_env) []).
    reflexivity. }
  split; [exact R | exact (instance_size_stays_large R)].
Defined.

Lemma observation_ignores_pod_data_witness :
  exists resp1 resp2 obs1 obs2 s1' s2',
    first_response busy (history fresh) = Ok resp1 /\
    first_response busy_other_pods (history fresh) = Ok resp2 /\
    resp1 <> resp2 /\
    throughput_rows resp1 = throughput_rows resp2 /\
    _get_obs busy fresh = (Ok obs1, s1') /\
    _get_obs busy_other_pods fresh = (Ok obs2, s2') /\
    obs1 = obs2.
Proof.
  do 6 eexists.
  split; [vm_compute; reflexivity |]. split; [vm_compute; reflexivity |].
  split; [discriminate |]. split; [reflexivity |].
  split; [vm_compute; reflexivity |]. split; [vm_compute; reflexivity |].
  eapply (@observation_ignores_pod_data libraries busy busy_other_pods
            fresh fresh);
    try reflexivity; vm_compute; reflexivity.
Defined.

Lemma step_counts_and_truncates_witness :
  exists res s',
    step busy 0 fresh = (Ok res, s') /\
    step_counter (self s') = step_counter (self fresh) + 1 /\
    truncated res = (step_counter (self s') mod 6 =? 0).
Proof.
  eexists. eexists. split; [vm_compute; reflexivity |].
  match goal with
  | |- step_counter (self ?st) = _ /\ truncated ?res = _ =>
      refine (proj1 (@step_counts_and_truncates libraries busy) 0 fresh res st _)
  end.
  vm_compute. reflexivity.
Defined.

Lemma step_never_terminates_witness :
  exists res s',
    step busy 2 fresh = (Ok res, s') /\ terminated res = false.
Proof.
  eexists. eexists. split; [vm_compute; reflexivity |].
  eapply (@step_never_terminates libraries busy 2 fresh).
  vm_compute. reflexivity.
Defined.

(** ** Runs against backends that misbehave *)

Lemma get_obs_asks_once_per_pod_witness :
  exists obs s',
    _get_obs busy_other_pods fresh = (Ok obs, s') /\
    new_events fresh s' =
      [PromQueryRlUpfExperiment1;
       RunQueries (advisor (PyList [PyStr "throughput"; PyStr "pods"]));
       RunQueries (node_client "10.0.7.7");
       RunQueries (node_client "10.0.7.8")].
Proof.
  eexists. eexists. split; [vm_compute; reflexivity |].
  match goal with
  | |- new_events _ ?st = _ =>
      destruct (@get_obs_asks_once_per_pod libraries busy_other_pods fresh
                  (PyList [PyStr "throughput"; PyStr "pods"])
                  (response busy_samples [pod "10.0.7.7"; pod "10.0.7.8"])
                  (PyList [pod "10.0.7.7"; pod "10.0.7.8"])
                  [pod "10.0.7.7"; pod "10.0.7.8"]
                  _ st eq_refl eq_refl eq_refl eq_refl
                  ltac:(vm_compute; reflexivity))
        as (ips & Hips & Hev)
  end.
  inversion Hips as [| p1 ip1 ps1 ips1 H1 Hrest1]; subst.
  inversion Hrest1 as [| p2 ip2 ps2 ips2 H2 Hrest2]; subst.
  inversion Hrest2; subst.
  injection H1 as <-. injection H2 as <-. exact Hev.
Defined.

Lemma get_obs_rejects_long_series_witness :
  exists series,
    throughput_values (sample_rate (self fresh))
      (response [(1700000000, "1000"); (1700001500, "2500")] [pod "10.0.1.23"])
      = Ok series /\
    List.length series = 101%nat /\
    samples (self fresh) = 60 /\
    _get_obs long_span fresh =
    (Raise ValueError,
     queried fresh (PyList [PyStr "throughput"; PyStr "pods"])).
Proof.
  eexists. split; [vm_compute; reflexivity |].
  split; [reflexivity |]. split; [reflexivity |].
  eapply (@get_obs_rejects_long_series libraries long_span fresh).
  - reflexivity.
  - reflexivity.
  - vm_compute. reflexivity.
  - vm_compute. reflexivity.
Defined.

Lemma get_obs_empty_result_witness :
  _get_obs no_series fresh =
  (Raise IndexError, queried fresh (PyList [PyStr "throughput"; PyStr "pods"])).
Proof.
  apply (@get_obs_empty_result libraries no_series fresh _
           (PyList [PyList []; PyList []]) eq_refl eq_refl).
  right. exists [PyList []]. reflexivity.
Defined.

Lemma get_obs_pod_without_host_ip_witness :
  _get_obs no_host_ip fresh =
  (Raise (KeyError "host_ip"),
   queried fresh (PyList [PyStr "throughput"; PyStr "pods"])).
Proof.
  eapply (@get_obs_pod_without_host_ip libraries no_host_ip fresh _
            (response busy_samples [anonymous_pod]) _ _ anonymous_pod []
            _ [("pod", PyStr "upf-0")]);
    first [reflexivity | vm_compute; reflexivity].
Defined.

Lemma step_accepts_any_action_witness :
  exists res s',
    step busy 7 fresh = (Ok res, s') /\
    filter is_handler_call (new_events fresh s') = [] /\
    slept (new_events fresh s') = [10] /\
    step_counter (self s') = step_counter (self fresh) + 1.
Proof.
  eexists. eexists. split; [vm_compute; reflexivity |].
  match goal with
  | |- filter _ (new_events _ ?st) = _ /\ _ =>
      destruct (@step_accepts_any_action libraries busy 7 fresh _ st
                  ltac:(discriminate) ltac:(discriminate) ltac:(discriminate)
                  ltac:(vm_compute; reflexivity))
        as (Hf & Hs & Hc)
  end.
  split; [exact Hf |]. split; [exact Hs | exact (Hc _ eq_refl)].
Defined.

Lemma step_cost_lookup_failure_witness :
  exists s1 e s',
    apply_action pricing_down 1 fresh = (Ok tt, s1) /\
    ec2_cost_calculator pricing_down (history s1 ++ [Sleep 10]) "m4.large"
      = Raise e /\
    step pricing_down 1 fresh = (Raise e, s') /\
    self s' = self fresh /\
    filter is_query (new_events fresh s') = [] /\
    dispatched (new_events fresh s') = [upf_request "Large"].
Proof.
  eexists. eexists.
  match goal with
  | |- exists s', ?A /\ ?B /\ _ =>
      assert (Ha : A) by (vm_compute; reflexivity);
      assert (Hb : B) by reflexivity
  end.
  destruct (@step_cost_lookup_failure libraries pricing_down 1 fresh _ _ Ha
              (or_introl Hb))
    as (s' & Hstep & Hself & Hq & _ & Hd).
  exists s'. split; [exact Ha |]. split; [exact Hb |].
  split; [exact Hstep |]. split; [exact Hself |]. split; [exact Hq |].
  rewrite Hd. reflexivity.
Defined.

Lemma step_calls_in_order_witness :
  exists res s' queries,
    step busy 1 fresh = (Ok res, s') /\
    new_events fresh s' =
      handler_events (PyStr "ghp_token") "Large" ++ sleep_and_costs ++ queries /\
    Forall (fun ev => is_query ev = true) queries.
Proof.
  eexists. eexists.
  match goal with
  | |- exists queries, ?A /\ _ =>
      assert (Ha : A) by (vm_compute; reflexivity)
  end.
  destruct (@step_calls_in_order libraries busy 1 fresh _ _ Ha)
    as (acts & queries & Hev & Hq & _ & H1 & _).
  destruct (H1 eq_refl) as (token & Ht & ->).
  injection Ht as <-.
  exists queries. repeat split; assumption.
Defined.

Lemma step_raise_changes_nothing_witness :
  exists e s',
    step prometheus_down 1 fresh = (Raise e, s') /\ self s' = self fresh.
Proof.
  eexists. eexists.
  match goal with
  | |- ?A /\ _ => assert (Ha : A) by (vm_compute; reflexivity)
  end.
  split; [exact Ha |].
  exact (@step_raise_changes_nothing libraries prometheus_down 1 fresh _ _ Ha).
Defined.

(** Five steps, then a [reset]: the first step of the new episode is
    already truncated. *)
Lemma reset_keeps_truncation_count_witness :
  exists rs s5 r s6 res s7,
    run_steps busy [0; 0; 0; 0; 0] fresh = (Ok rs, s5) /\
    reset busy None PyNone s5 = (r, s6) /\
    step busy 0 s6 = (Ok res, s7) /\
    step_counter (self s7) = step_counter (self s5) + 1 /\
    truncated res = true.
Proof.
  eexists. eexists. eexists. eexists. eexists. eexists.
  match goal with
  | |- ?A /\ _ => assert (Ha : A) by (vm_compute; reflexivity)
  end.
  split; [exact Ha |].
  match goal with
  | |- ?B /\ _ => assert (Hb : B) by (vm_compute; reflexivity)
  end.
  split; [exact Hb |].
  match goal with
  | |- ?C /\ _ => assert (Hc : C) by (vm_compute; reflexivity)
  end.
  split; [exact Hc |].
  destruct (@reset_keeps_truncation_count libraries busy None PyNone 0
              _ _ _ _ _ Hb Hc) as [Hk Ht].
  split; [exact Hk | exact Ht].
Defined.

Lemma reachable_environment_is_consistent_witness :
  reachable busy (snd (step busy 2 fresh)) /\
  consistent (self (snd (step busy 2 fresh))).
Proof.
  assert (R : reachable busy (snd (step busy 2 fresh))).
  { eapply reachable_step; [| apply surjective_pairing].
    apply (reachable_init busy None 15 4 5 (env := default_env) []).
    reflexivity. }
  split; [exact R | exact (reachable_environment_is_consistent R)].
Defined.

Lemma observation_fits_declared_space_witness :
  reachable busy fresh /\
  exists res s',
    step busy 1 fresh = (Ok res, s') /\
    shape (observation res) = box_shape (observation_space (self fresh)).
Proof.
  assert (R : reachable busy fresh).
  { apply (reachable_init busy None 15 4 5 (env := default_env) []).
    reflexivity. }
  split; [exact R |].
  eexists. eexists.
  match goal with
  | |- ?A /\ _ => assert (Ha : A) by (vm_compute; reflexivity)
  end.
  split; [exact Ha |].
  exact (proj1 (proj1 (observation_fits_declared_space R) _ _ _ Ha)).
Defined.

Lemma step_ignores_cost_answers_witness :
  ec2_cost_calculator busy [] "m4.large"
    <> ec2_cost_calculator dearer [] "m4.large" /\
  step busy 1 fresh = step dearer 1 fresh.
Proof.
  split; [discriminate |].
  apply (@step_ignores_cost_answers libraries busy dearer
           eq_refl eq_refl eq_refl eq_refl eq_refl).
  - intros h name. simpl. destruct (String.eqb name "m4.large"); reflexivity.
  - intros h name. simpl. destruct (String.eqb name "m4.large"); reflexivity.
Defined.
